(** * iaqualink-py, cyclonext system: shadow refresh and reconciliation

    A shallow embedding of
      - [src/iaqualink/systems/cyclonext/system.py] (class [CyclonextSystem])
      - [src/iaqualink/systems/cyclonext/device.py] (class [CyclonextDevice])
    together with the properties of the refresh protocol and of the shadow
    parser that the specification states.

    Conventions.
      - A decoded JSON value is a [json] tree; a Python [dict] that the code
        iterates is an insertion-ordered association list ([pydict]).
      - The device registry [self.devices] is only looked up and assigned, so
        it is a [gmap string loc]; device objects live in a heap ([list
        Device], a location is an index), which keeps object identity and
        the in-place mutation of [device.data] visible.
      - Exceptions are values of [exn]; an effectful method is a function
        [state -> result A * state] (the state survives a raise, as in
        Python).
      - What the sources at hand do not contain (the client, the clock, a
        constant, the exception classes) is a [World]: the methods are
        functions of it, and the calls made to the client are logged in the
        state. *)

From Stdlib Require Import ZArith List String Ascii Lia Permutation DecimalString.
From stdpp Require Import base tactics option list gmap strings.

Set Warnings "-register-all,-clear-no-such-hyp".
Open Scope string_scope.
Open Scope Z_scope.

(** ** Exceptions *)

(** The classes that can reach [CyclonextSystem]: the three service classes
    of [iaqualink.exception] and the builtin ones raised by the operations on
    the decoded document. *)
Inductive exn : Type :=
  | AqualinkServiceException
  | AqualinkServiceUnauthorizedException
  | AqualinkSystemOfflineException
  | JSONDecodeError
  | KeyError
  | TypeError
  | AttributeError.

#[global] Instance exn_eq_dec : EqDecision exn.
Proof. solve_decision. Defined.

Inductive result (A : Type) : Type :=
  | Ok (a : A)
  | Raise (e : exn).
Arguments Ok {A} a.
Arguments Raise {A} e.

Definition rbind {A B} (r : result A) (k : A -> result B) : result B :=
  match r with
  | Ok a => k a
  | Raise e => Raise e
  end.

Notation "x <- r ;; k" := (rbind r (fun x => k))
  (at level 100, r at next level, right associativity, only parsing).

(** A Python [for x in xs: body] over a loop state [S], stopping at the first
    exception. *)
Fixpoint for_each {A S : Type} (body : A -> S -> result S) (xs : list A) (s : S)
  : result S :=
  match xs with
  | [] => Ok s
  | x :: xs' =>
      match body x s with
      | Ok s' => for_each body xs' s'
      | Raise e => Raise e
      end
  end.

(** ** Python dictionaries with string keys *)

Definition pydict (V : Type) : Type := list (string * V).

Section PyDict.
Context {V : Type}.

(** [d.get(k)]: the value stored under [k], if any. *)
Fixpoint dict_get (k : string) (d : pydict V) : option V :=
  match d with
  | [] => None
  | (k', v) :: d' => if decide (k = k') then Some v else dict_get k d'
  end.

(** [d[k] = v] (and [d.update({k: v})]): an existing key keeps its place,
    a new one goes last. *)
Fixpoint dict_setitem (k : string) (v : V) (d : pydict V) : pydict V :=
  match d with
  | [] => [(k, v)]
  | (k', v') :: d' =>
      if decide (k = k') then (k, v) :: d' else (k', v') :: dict_setitem k v d'
  end.

Definition dict_keys (d : pydict V) : list string := d.*1.

(** [k in d]. *)
Definition dict_contains (k : string) (d : pydict V) : bool :=
  bool_decide (is_Some (dict_get k d)).
End PyDict.

(** ** Decoded JSON documents *)

(** What [response.json()] returns.  The code never computes with a number,
    so an integer is kept as [Z] and any other number as its literal text. *)
Inductive json : Type :=
  | JNull
  | JBool (b : bool)
  | JNum (n : Z)
  | JFloat (literal : string)
  | JStr (s : string)
  | JArr (items : list json)
  | JObj (members : pydict json).

(** [d[key]] on a decoded value: only a dict can be indexed by a string. *)
Definition py_getitem (d : json) (key : string) : result json :=
  match d with
  | JObj members =>
      match dict_get key members with
      | Some v => Ok v
      | None => Raise KeyError
      end
  | _ => Raise TypeError
  end.

(** The values a [for] loop sees when it iterates a decoded value: the
    elements of a list, the keys of a dict, the characters of a string. *)
Definition py_iter (d : json) : result (list json) :=
  match d with
  | JArr items => Ok items
  | JObj members => Ok (JStr <$> dict_keys members)
  | JStr s => Ok ((fun c => JStr (String c EmptyString)) <$> list_ascii_of_string s)
  | _ => Raise TypeError
  end.

(** [d.items()]: only a dict has the method. *)
Definition py_items (d : json) : result (list (string * json)) :=
  match d with
  | JObj members => Ok members
  | _ => Raise AttributeError
  end.

(** ** Flattening (system.py, lines 94-116) *)

Definition top_names : list string := ["mode"; "cycle"; "cycleStartTime"].
Definition dur_names : list string := ["quickTim"; "deepTim"; "stepper"].

(** [attrs = {"name": name}; attrs.update({"state": state})] *)
Definition make_attrs (name : string) (state : json) : pydict json :=
  dict_setitem "state" state [("name", JStr name)].

(** Body of [for durName, durState in state.items()]. *)
Definition durations_body (kv : string * json) (devices : pydict (pydict json))
  : result (pydict (pydict json)) :=
  let '(durName, durState) := kv in
  if bool_decide (durName ∈ dur_names)
  then Ok (dict_setitem durName (make_attrs durName durState) devices)
  else Ok devices.

(** Body of [for name, state in value.items()]: two independent [if]s. *)
Definition attribute_body (kv : string * json) (devices : pydict (pydict json))
  : result (pydict (pydict json)) :=
  let '(name, state) := kv in
  let devices1 :=
    if bool_decide (name ∈ top_names)
    then dict_setitem name (make_attrs name state) devices
    else devices in
  if decide (name = "durations")
  then items <- py_items state ;; for_each durations_body items devices1
  else Ok devices1.

(** Body of [for idx, value in enumerate(root)]. *)
Definition robot_body (value : json) (devices : pydict (pydict json))
  : result (pydict (pydict json)) :=
  match value with
  | JNull => Ok devices
  | _ => items <- py_items value ;; for_each attribute_body items devices
  end.

(** The first loop of [_parse_shadow_response], started on [devices = {}]. *)
Definition flatten_robot (root : json) : result (pydict (pydict json)) :=
  entries <- py_iter root ;; for_each robot_body entries [].

(** [data["state"]["reported"]["equipment"]["robot"]] *)
Definition robot_root (data : json) : result json :=
  a <- py_getitem data "state" ;;
  b <- py_getitem a "reported" ;;
  c <- py_getitem b "equipment" ;;
  py_getitem c "robot".

(** ** Devices (device.py) *)

Inductive device_class : Type :=
  | CyclonextSensor
  | CyclonextAttributeSensor
  | CyclonextProg.

(** A device object: its class and the attribute bag [self.data].

    Modelled from the spec: the constructor of [AqualinkDevice]
    ([iaqualink.device], not part of the sources at hand) keeps the mapping
    it is given as the attribute bag of the device.  The bag of a new device
    is therefore the very [attrs] dict built by the flattening loop; the
    only other reference to that dict is the transient [devices] dict, which
    dies with the call and is not written after the device is built, so the
    bag is kept inside the object. *)
Record Device : Type := mkDevice {
  dev_class : device_class;
  dev_data : pydict json;
}.

(** [data["name"] in ["production", "boost", "low"]]: only a string equals a
    string. *)
Definition name_in (name : json) (names : list string) : bool :=
  match name with
  | JStr s => bool_decide (s ∈ names)
  | _ => false
  end.

(** [CyclonextDevice.from_data(system, data)] *)
Definition from_data (data : pydict json) : result Device :=
  match dict_get "name" data with
  | None => Raise KeyError
  | Some name =>
      let class_ :=
        if name_in name ["production"; "boost"; "low"]
        then CyclonextProg
        else CyclonextAttributeSensor in
      Ok (mkDevice class_ data)
  end.

(** ** The system object and its collaborators *)

Abbreviation loc := nat.

(** Keyword arguments of [send_devices_request]: none for the reported
    state, [method="post", json=...] for a desired state. *)
Inductive kwargs : Type :=
  | NoKwargs
  | PostJson (body : json).

Record Request : Type := mkRequest {
  req_url : string;
  req_authorization : string;
  req_kwargs : kwargs;
}.

(** An [httpx.Response], seen through the one method the code calls:
    what [response.json()] returns or raises. *)
Record Response : Type := mkResponse {
  response_json : result json;
}.

(** Calls made to the client, oldest first. *)
Inductive event : Type :=
  | EvSendRequest (rq : Request)
  | EvLogin.

Record state : Type := mkState {
  serial : string;
  last_refresh : Z;
  online : option bool;            (* [None] is unknown *)
  devices : gmap string loc;
  heap : list Device;
  id_token : string;               (* [self.aqualink.id_token] *)
  trace : list event;
  clock_reads : nat;
}.

Definition set_last_refresh (t : Z) (st : state) : state :=
  mkState (serial st) t (online st) (devices st) (heap st) (id_token st)
          (trace st) (clock_reads st).
Definition set_online (o : option bool) (st : state) : state :=
  mkState (serial st) (last_refresh st) o (devices st) (heap st) (id_token st)
          (trace st) (clock_reads st).
Definition set_devices (m : gmap string loc) (st : state) : state :=
  mkState (serial st) (last_refresh st) (online st) m (heap st) (id_token st)
          (trace st) (clock_reads st).
Definition set_heap (h : list Device) (st : state) : state :=
  mkState (serial st) (last_refresh st) (online st) (devices st) h (id_token st)
          (trace st) (clock_reads st).
Definition set_id_token (tok : string) (st : state) : state :=
  mkState (serial st) (last_refresh st) (online st) (devices st) (heap st) tok
          (trace st) (clock_reads st).
Definition log_event (ev : event) (st : state) : state :=
  mkState (serial st) (last_refresh st) (online st) (devices st) (heap st)
          (id_token st) (trace st ++ [ev]) (clock_reads st).
Definition tick (st : state) : state :=
  mkState (serial st) (last_refresh st) (online st) (devices st) (heap st)
          (id_token st) (trace st) (S (clock_reads st)).

(** [CyclonextSystem.__init__]: [last_refresh = 0]; the registry starts
    empty. *)
Definition new_system (serial_ token : string) (online_ : option bool) : state :=
  mkState serial_ 0 online_ ∅ [] token [] 0.

Definition is_send (ev : event) : bool :=
  match ev with EvSendRequest _ => true | EvLogin => false end.
Definition is_login (ev : event) : bool :=
  match ev with EvLogin => true | EvSendRequest _ => false end.
Definition sends (st : state) : list event := List.filter is_send (trace st).
Definition logins (st : state) : list event := List.filter is_login (trace st).

(** The device a registry key denotes. *)
Definition device_at (st : state) (k : string) : option Device :=
  devices st !! k ≫= fun l => heap st !! l.

(** ** Effectful methods *)

Definition M (A : Type) : Type := state -> result A * state.

Definition ret {A} (a : A) : M A := fun st => (Ok a, st).
Definition raise {A} (e : exn) : M A := fun st => (Raise e, st).
Definition bind {A B} (m : M A) (k : A -> M B) : M B :=
  fun st =>
    match m st with
    | (Ok a, st') => k a st'
    | (Raise e, st') => (Raise e, st')
    end.
Definition lift {A} (r : result A) : M A := fun st => (r, st).
Definition get {A} (f : state -> A) : M A := fun st => (Ok (f st), st).
Definition modify (f : state -> state) : M unit := fun st => (Ok tt, f st).

Notation "x <~ m ;; k" := (bind m (fun x => k))
  (at level 100, m at next level, right associativity, only parsing).
Notation "m ;;; k" := (bind m (fun _ => k))
  (at level 100, right associativity, only parsing).

(** [try: body / except C: handler; raise]: the handler runs when the class
    of the exception matches [C], and the exception goes on. *)
Definition try_except_reraise {A} (body : M A) (C : exn -> bool) (handler : M unit)
  : M A :=
  fun st =>
    match body st with
    | (Ok a, st') => (Ok a, st')
    | (Raise e, st') =>
        if C e
        then match handler st' with
             | (Ok _, st'') => (Raise e, st'')
             | (Raise e', st'') => (Raise e', st'')
             end
        else (Raise e, st')
    end.

(** [try: body / except C: handler], the handler giving the result. *)
Definition try_except {A} (body : M A) (C : exn -> bool) (handler : M A) : M A :=
  fun st =>
    match body st with
    | (Ok a, st') => (Ok a, st')
    | (Raise e, st') => if C e then handler st' else (Raise e, st')
    end.

Fixpoint for_each_M {A} (body : A -> M unit) (xs : list A) : M unit :=
  match xs with
  | [] => ret tt
  | x :: xs' => body x ;;; for_each_M body xs'
  end.

(** ** Merging into the registry (system.py, lines 120-125) *)

(** [self.devices[k].data[dk] = dv] for the device object at [l].  A Python
    reference always denotes a live object; [registry_ok] below says so of
    the registry, and outside it [alter] leaves the heap as it is. *)
Definition data_setitem (l : loc) (dk : string) (dv : json) : M unit :=
  modify (fun st =>
    set_heap (alter (fun d => mkDevice (dev_class d) (dict_setitem dk dv (dev_data d)))
                    l (heap st)) st).

(** [self.devices[k] = device] for a newly constructed object. *)
Definition register_new (k : string) (d : Device) : M unit :=
  modify (fun st =>
    set_devices (<[k := length (heap st)]> (devices st)) (set_heap (heap st ++ [d]) st)).

(** Body of [for k, v in devices.items()]. *)
Definition merge_body (kv : string * pydict json) : M unit :=
  let '(k, v) := kv in
  reg <~ get devices ;;
  match reg !! k with
  | Some l => for_each_M (fun '(dk, dv) => data_setitem l dk dv) v
  | None => d <~ lift (from_data v) ;; register_new k d
  end.

(** Lines 90-116: decode, find the robot sequence, flatten.  Nothing of the
    system is touched up to here. *)
Definition shadow_entries (response : Response) : result (pydict (pydict json)) :=
  data <- response_json response ;;
  root <- robot_root data ;;
  flatten_robot root.

Definition _parse_shadow_response (response : Response) : M unit :=
  flat <~ lift (shadow_entries response) ;;
  for_each_M merge_body flat.

(** ** The refresh protocol *)

Definition CYCLONEXT_DEVICES_URL : string := "https://prod.zodiac-io.com/devices/v1".

(** What the system object is given from outside: a constant, a class
    declaration, the clock and the two methods of the client. *)
Record World : Type := mkWorld {
  (** [iaqualink.const.MIN_SECS_TO_REFRESH]. *)
  MIN_SECS_TO_REFRESH : Z;
  (** Whether [AqualinkSystemOfflineException] derives from
      [AqualinkServiceException] in [iaqualink.exception]. *)
  offline_is_service : bool;
  (** [int(time.time())] at the n-th reading of the clock. *)
  time_time : nat -> Z;
  (** What the transport answers to the n-th request. *)
  transport : nat -> Request -> result Response;
  (** What the n-th [login()] does: the new credential, or a failure. *)
  authenticator : nat -> result string;
}.

Section Controller.
Variable w : World.

(** Modelled from the spec: the exception hierarchy of
    [iaqualink.exception], which is not part of the sources at hand.  An
    unauthorized failure is a service error (section 7: a second occurrence
    is propagated as a service error). *)
Definition isinstance_service (e : exn) : bool :=
  match e with
  | AqualinkServiceException => true
  | AqualinkServiceUnauthorizedException => true
  | AqualinkSystemOfflineException => offline_is_service w
  | _ => false
  end.
Definition isinstance_unauthorized (e : exn) : bool :=
  bool_decide (e = AqualinkServiceUnauthorizedException).
Definition isinstance_offline (e : exn) : bool :=
  bool_decide (e = AqualinkSystemOfflineException).

Definition read_clock : M Z :=
  fun st => (Ok (time_time w (clock_reads st)), tick st).

(** [self.aqualink.send_request(url, headers=headers, **kwargs)] *)
Definition aqualink_send_request (rq : Request) : M Response :=
  fun st => (transport w (length (sends st)) rq, log_event (EvSendRequest rq) st).

(** Modelled from the spec: [AqualinkClient.login], which is not part of
    the sources at hand.  It returns a bearer credential on demand, kept in
    [id_token], and can fail. *)
Definition aqualink_login : M unit :=
  fun st =>
    match authenticator w (length (logins st)) with
    | Ok tok => (Ok tt, set_id_token tok (log_event EvLogin st))
    | Raise e => (Raise e, log_event EvLogin st)
    end.

Definition send_devices_request (kw : kwargs) : M Response :=
  serial_ <~ get serial ;;
  let url := CYCLONEXT_DEVICES_URL ++ "/" ++ serial_ ++ "/shadow" in
  headers <~ get id_token ;;
  try_except (aqualink_send_request (mkRequest url headers kw))
    isinstance_unauthorized
    (aqualink_login ;;;
     headers <~ get id_token ;;
     aqualink_send_request (mkRequest url headers kw)).

Definition send_reported_state_request : M Response :=
  send_devices_request NoKwargs.

Definition send_desired_state_request (desired : json) : M Response :=
  send_devices_request (PostJson (JObj [("state", JObj [("desired", desired)])])).

Definition update : M unit :=
  now <~ read_clock ;;
  last <~ get last_refresh ;;
  let delta := now - last in
  if decide (delta < MIN_SECS_TO_REFRESH w) then ret tt
  else
    r <~ try_except_reraise send_reported_state_request
           isinstance_service (modify (set_online None)) ;;
    try_except_reraise (_parse_shadow_response r)
      isinstance_offline (modify (set_online (Some false))) ;;;
    modify (set_online (Some true)) ;;;
    now' <~ read_clock ;;
    modify (set_last_refresh now').
End Controller.

(** ** What the specification says about a document *)

(** A robot entry the parser accepts: null, or a mapping (with the unique
    keys of a Python dict) whose [durations] member, when there is one, is
    itself a mapping. *)
Definition dict_ok {V} (d : pydict V) : Prop := NoDup (dict_keys d).

Definition entry_ok (e : json) : Prop :=
  match e with
  | JNull => True
  | JObj members =>
      dict_ok members /\
      match dict_get "durations" members with
      | Some (JObj sub) => dict_ok sub
      | Some _ => False
      | None => True
      end
  | _ => False
  end.

#[global] Instance entry_ok_dec e : Decision (entry_ok e).
Proof.
  destruct e as [| | | | | |members]; simpl; try apply _.
  apply and_dec; [apply _|].
  destruct (dict_get "durations" members) as [[]|]; apply _.
Defined.

(** The weaker condition that looks at the entry alone: null or a mapping. *)
Definition null_or_mapping (e : json) : Prop :=
  match e with
  | JNull | JObj _ => True
  | _ => False
  end.

(** A value without an [items] method. *)
Definition not_mapping (v : json) : Prop :=
  match v with
  | JObj _ => False
  | _ => True
  end.

(** The value one robot entry gives to the flattened name [n]: a recognized
    top-level key is read from the entry, a recognized duration from inside
    its [durations] mapping, nothing else is read. *)
Definition entry_value (n : string) (e : json) : option json :=
  match e with
  | JObj members =>
      if bool_decide (n ∈ top_names) then dict_get n members
      else if bool_decide (n ∈ dur_names) then
        match dict_get "durations" members with
        | Some (JObj sub) => dict_get n sub
        | _ => None
        end
      else None
  | _ => None
  end.

(** The value the document gives to [n]: that of the last entry that has
    one. *)
Fixpoint document_value (n : string) (robot : list json) : option json :=
  match robot with
  | [] => None
  | e :: robot' =>
      match document_value n robot' with
      | Some v => Some v
      | None => entry_value n e
      end
  end.

(** The six names the flattening step can record. *)
Definition recognized_names : list string := (top_names ++ dur_names)%list.

(** The document of the specification's worked example. *)
Definition example_entry : json :=
  JObj [("mode", JStr "filter"); ("cycle", JStr "A"); ("cycleStartTime", JNum 123);
        ("durations", JObj [("quickTim", JNum 5); ("deepTim", JNum 10);
                            ("stepper", JNum 2); ("ignored", JNum 99)])].

(** ** What the specification says about the registry *)

(** The variant selection rule of the device factory. *)
Definition class_of_name (name : string) : device_class :=
  if bool_decide (name ∈ ["production"; "boost"; "low"])
  then CyclonextProg
  else CyclonextAttributeSensor.

(** The transient dict that holds [{"name": k, "state": s}] under each key
    [k] of [recs]. *)
Definition shape (recs : pydict json) : pydict (pydict json) :=
  (fun kv => (kv.1, make_attrs kv.1 kv.2)) <$> recs.

(** What the registry holds under a name after an entry [(name, s)] has been
    merged: the device that was there with its [state] overwritten, or a new
    device. *)
Definition reconcile (old : option Device) (name : string) (s : json) : Device :=
  match old with
  | Some d => mkDevice (dev_class d) (dict_setitem "state" s (dev_data d))
  | None => mkDevice (class_of_name name) (make_attrs name s)
  end.

(** The registry invariant: every key denotes a live device object whose
    [name] attribute is the key.  It holds of a new system and every parse
    keeps it; in particular two keys never share an object. *)
Definition registry_ok (st : state) : Prop :=
  forall k l, devices st !! k = Some l ->
    exists d, heap st !! l = Some d /\ dict_get "name" (dev_data d) = Some (JStr k).

(** What a merge may change: the registry and the heap grow, a registered
    key keeps its object, an object keeps its class; nothing else moves. *)
Record extends (st st' : state) : Prop := mkExtends {
  ext_serial : serial st' = serial st;
  ext_last_refresh : last_refresh st' = last_refresh st;
  ext_online : online st' = online st;
  ext_id_token : id_token st' = id_token st;
  ext_trace : trace st' = trace st;
  ext_clock : clock_reads st' = clock_reads st;
  ext_devices : forall k l, devices st !! k = Some l -> devices st' !! k = Some l;
  ext_length : (length (heap st) <= length (heap st'))%nat;
  ext_class : forall l d, heap st !! l = Some d ->
                exists d', heap st' !! l = Some d' /\ dev_class d' = dev_class d;
}.

(** The effect of [for dk, dv in v.items(): device.data[dk] = dv] on the
    device. *)
Definition overwrite (v : pydict json) (d : Device) : Device :=
  mkDevice (dev_class d)
           (fold_left (fun data kv => dict_setitem kv.1 kv.2 data) v (dev_data d)).

(** The state after one turn of the merge loop on the entry
    [(k, {"name": k, "state": s})]. *)
Definition merge_state (k : string) (s : json) (st : state) : state :=
  match devices st !! k with
  | Some l => set_heap (alter (overwrite (make_attrs k s)) l (heap st)) st
  | None =>
      set_devices (<[k := length (heap st)]> (devices st))
        (set_heap (heap st ++ [mkDevice (class_of_name k) (make_attrs k s)]) st)
  end.

(** The form of the transient dict at every point of the flattening loop:
    unique keys, and [{"name": k, "state": s}] under each key [k]. *)
Definition shaped (acc : pydict (pydict json)) : Prop :=
  exists recs, acc = shape recs /\ dict_ok recs.

(** ** Iteration order *)

(** The same mapping iterated in another order: its members permuted, and
    the members of its [durations] mapping permuted. *)
Definition member_reordered (kv kv' : string * json) : Prop :=
  kv.1 = kv'.1 /\
  (kv.2 = kv'.2 \/
   (kv.1 = "durations" /\
    exists sub sub', kv.2 = JObj sub /\ kv'.2 = JObj sub' /\ sub ≡ₚ sub')).

Definition entry_reordered (e e' : json) : Prop :=
  match e, e' with
  | JObj m, JObj m' => exists mid, m ≡ₚ mid /\ Forall2 member_reordered mid m'
  | _, _ => e = e'
  end.

(** The same robot sequence iterated in another order. *)
Definition robot_reordered (r r' : list json) : Prop :=
  exists mid, r ≡ₚ mid /\ Forall2 entry_reordered mid r'.

(** The entries that give a value to a name agree on it (as they do when
    every name occurs once). *)
Definition consistent (robot : list json) : Prop :=
  forall n e1 e2 v1 v2,
    e1 ∈ robot -> e2 ∈ robot ->
    entry_value n e1 = Some v1 -> entry_value n e2 = Some v2 -> v1 = v2.

(** ** Concrete documents and states used in the examples *)

Definition shadow_document (robot : list json) : json :=
  JObj [("state",
         JObj [("reported", JObj [("equipment", JObj [("robot", JArr robot)])])])].

Definition response_of (robot : list json) : Response :=
  mkResponse (Ok (shadow_document robot)).

(** A system that has seen [mode] before; its device carries one more
    attribute than the parser writes. *)
Definition seen_mode : state :=
  mkState "SN0001" 100 (Some true) {["mode" := 0%nat]}
    [mkDevice CyclonextAttributeSensor
       [("name", JStr "mode"); ("state", JStr "filter"); ("label", JStr "Mode")]]
    "token-0" [] 0.

(** ** States of a running system *)

(** The states a system goes through: it is constructed, then refreshed and
    sent desired states, in any number and order, whatever the outcomes. *)
Inductive reachable (w : World) : state -> Prop :=
  | reach_new serial_ token online_ :
      reachable w (new_system serial_ token online_)
  | reach_update st :
      reachable w st -> reachable w (update w st).2
  | reach_desired st desired :
      reachable w st -> reachable w (send_desired_state_request w desired st).2.

(** The exceptions the decoded document itself can cause. *)
Definition document_error (e : exn) : Prop :=
  e = KeyError \/ e = TypeError \/ e = AttributeError.

(** ** Requests of one call *)

(** The URL of the shadow of this system. *)
Definition shadow_url (st : state) : string :=
  CYCLONEXT_DEVICES_URL ++ "/" ++ serial st ++ "/shadow".

(** The first request of a call, and the request sent again with the
    credential [tok]. *)
Definition first_request (kw : kwargs) (st : state) : Request :=
  mkRequest (shadow_url st) (id_token st) kw.
Definition retry_request (kw : kwargs) (tok : string) (st : state) : Request :=
  mkRequest (shadow_url st) tok kw.

(** ** Concrete worlds used in the examples *)

(** A transport that accepts one credential only and answers [resp]. *)
Definition accepts (good : string) (resp : Response) (n : nat) (rq : Request)
  : result Response :=
  if decide (req_authorization rq = good) then Ok resp
  else Raise AqualinkServiceUnauthorizedException.

(** The credential of the system has expired; a login gives a good one. *)
Definition world_expired (resp : Response) : World :=
  mkWorld 5 true (fun _ => 1000) (accepts "token-1" resp) (fun _ => Ok "token-1").

(** The service rejects every credential. *)
Definition world_rejected : World :=
  mkWorld 5 true (fun _ => 1000)
    (fun _ _ => Raise AqualinkServiceUnauthorizedException) (fun _ => Ok "token-1").

(** The credential has expired and the login fails too. *)
Definition world_login_fails : World :=
  mkWorld 5 true (fun _ => 1000)
    (fun _ _ => Raise AqualinkServiceUnauthorizedException)
    (fun _ => Raise AqualinkServiceUnauthorizedException).

(** Two seconds after the last refresh, with a minimum of five. *)
Definition world_too_early : World :=
  mkWorld 5 true (fun _ => 102) (accepts "token-0" (response_of [example_entry]))
    (fun _ => Ok "token-1").

(** The response says, when decoded, that the system is offline. *)
Definition world_offline : World :=
  mkWorld 5 true (fun _ => 1000)
    (fun _ _ => Ok (mkResponse (Raise AqualinkSystemOfflineException)))
    (fun _ => Ok "token-1").

(** The second robot entry of the response has a [durations] member that is
    a number. *)
Definition malformed_robot : list json :=
  [example_entry; JObj [("mode", JStr "waste"); ("durations", JNum 5)]].

Definition world_malformed : World :=
  mkWorld 5 true (fun _ => 1000) (fun _ _ => Ok (response_of malformed_robot))
    (fun _ => Ok "token-1").

(** ** Python strings *)

(** The string methods the device classes call, on ASCII text (a Python
    [str] whose code points are below 128, one character per [ascii]). *)
Definition is_ascii (c : ascii) : bool := (nat_of_ascii c <? 128)%nat.
Definition is_upper (c : ascii) : bool :=
  (65 <=? nat_of_ascii c)%nat && (nat_of_ascii c <=? 90)%nat.
Definition is_lower (c : ascii) : bool :=
  (97 <=? nat_of_ascii c)%nat && (nat_of_ascii c <=? 122)%nat.
Definition char_lower (c : ascii) : ascii :=
  if is_upper c then ascii_of_nat (nat_of_ascii c + 32) else c.
Definition char_upper (c : ascii) : ascii :=
  if is_lower c then ascii_of_nat (nat_of_ascii c - 32) else c.

Definition ascii_text (s : string) : Prop :=
  Forall (fun c => is_ascii c = true) (list_ascii_of_string s).

(** [s.lower()] *)
Fixpoint py_lower (s : string) : string :=
  match s with
  | EmptyString => EmptyString
  | String c s' => String (char_lower c) (py_lower s')
  end.

(** [s.capitalize()]: the first character in upper case, the rest in lower
    case. *)
Definition py_capitalize (s : string) : string :=
  match s with
  | EmptyString => EmptyString
  | String c s' => String (char_upper c) (py_lower s')
  end.

(** [s.split(sep)] for a separator of one character: every occurrence
    splits, so the result is never empty and may hold empty strings. *)
Fixpoint py_split (sep : ascii) (s : string) : list string :=
  match s with
  | EmptyString => [EmptyString]
  | String c s' =>
      if decide (c = sep) then EmptyString :: py_split sep s'
      else match py_split sep s' with
           | w :: ws => String c w :: ws
           | [] => [String c EmptyString]
           end
  end.

(** [sep.join(ws)] *)
Fixpoint py_join (sep : string) (ws : list string) : string :=
  match ws with
  | [] => EmptyString
  | w :: ws' =>
      match ws' with
      | [] => w
      | _ :: _ => w ++ sep ++ py_join sep ws'
      end
  end.

(** [s.replace(old, new)]: the occurrences of [old] are replaced from left
    to right, without overlap; [skip] counts the characters of an occurrence
    still to be passed over. *)
Fixpoint replace_from (old new : string) (skip : nat) (s : string) : string :=
  match s with
  | EmptyString => EmptyString
  | String c s' =>
      match skip with
      | S k => replace_from old new k s'
      | O =>
          if String.prefix old s
          then new ++ replace_from old new (String.length old - 1) s'
          else String c (replace_from old new 0 s')
      end
  end.

Fixpoint replace_empty (new : string) (s : string) : string :=
  match s with
  | EmptyString => EmptyString
  | String c s' => String c (new ++ replace_empty new s')
  end.

Definition py_replace (s old new : string) : string :=
  match old with
  | EmptyString => new ++ replace_empty new s
  | String _ _ => replace_from old new 0 s
  end.

(** ** Properties of the device classes (device.py) *)

(** [CyclonextDevice.name]: [self.data["name"]]. *)
Definition CyclonextDevice_name (d : Device) : result json :=
  match dict_get "name" (dev_data d) with
  | Some v => Ok v
  | None => Raise KeyError
  end.

(** [" ".join([x.capitalize() for x in name.split("_")])] *)
Definition label_of_name (name : string) : string :=
  py_join " " (py_capitalize <$> py_split "_"%char name).

(** [CyclonextDevice.label]; only a [str] has [split]. *)
Definition CyclonextDevice_label (d : Device) : result string :=
  name <- CyclonextDevice_name d ;;
  match name with
  | JStr s => Ok (label_of_name s)
  | _ => Raise AttributeError
  end.

(** [CyclonextSensor.label]: [self.data["sensor_type"]]. *)
Definition CyclonextSensor_label (d : Device) : result json :=
  match dict_get "sensor_type" (dev_data d) with
  | Some v => Ok v
  | None => Raise KeyError
  end.

(** [sensor_type.lower().replace(" ", "_")] *)
Definition name_of_sensor_type (sensor_type : string) : string :=
  py_replace (py_lower sensor_type) " " "_".

(** [CyclonextSensor.name]; only a [str] has [lower]. *)
Definition CyclonextSensor_name (d : Device) : result string :=
  t <- CyclonextSensor_label d ;;
  match t with
  | JStr s => Ok (name_of_sensor_type s)
  | _ => Raise AttributeError
  end.

(** [device.name] and [device.label] as the class of the object resolves
    them: [CyclonextSensor] overrides both, the other two classes inherit
    them. *)
Definition device_name (d : Device) : result json :=
  match dev_class d with
  | CyclonextSensor => s <- CyclonextSensor_name d ;; Ok (JStr s)
  | _ => CyclonextDevice_name d
  end.

Definition device_label (d : Device) : result json :=
  match dev_class d with
  | CyclonextSensor => CyclonextSensor_label d
  | _ => s <- CyclonextDevice_label d ;; Ok (JStr s)
  end.

(** [self.__class__.__name__] *)
Definition class_name (c : device_class) : string :=
  match c with
  | CyclonextSensor => "CyclonextSensor"
  | CyclonextAttributeSensor => "CyclonextAttributeSensor"
  | CyclonextProg => "CyclonextProg"
  end.

(** [CyclonextDevice.model] and [CyclonextDevice.manufacturer]. *)
Definition device_model (d : Device) : string :=
  py_replace (class_name (dev_class d)) "Cyclonext" "".
Definition device_manufacturer (d : Device) : string := "Zodiac".

Section Str.
(** [str(v)] of a list, a dict or a float, which is not spelled out here. *)
Variable repr_other : json -> string.

(** [str(v)] of a decoded value. *)
Definition py_str (v : json) : string :=
  match v with
  | JStr s => s
  | JNull => "None"
  | JBool true => "True"
  | JBool false => "False"
  | JNum n => NilZero.string_of_int (Z.to_int n)
  | _ => repr_other v
  end.

(** [CyclonextDevice.state]: [str(self.data["state"])]. *)
Definition CyclonextDevice_state (d : Device) : result string :=
  match dict_get "state" (dev_data d) with
  | Some v => Ok (py_str v)
  | None => Raise KeyError
  end.
End Str.

(** ** What holds of every registry the parser builds *)

(** Every key is one of the six recognized names and denotes a live
    [CyclonextAttributeSensor] that carries the key as [name] and has a
    [state]. *)
Definition registry_sane (st : state) : Prop :=
  forall k l, devices st !! k = Some l ->
    k ∈ recognized_names /\
    exists d, heap st !! l = Some d /\
      dev_class d = CyclonextAttributeSensor /\
      dict_get "name" (dev_data d) = Some (JStr k) /\
      is_Some (dict_get "state" (dev_data d)).

(** Every key of a dict is one of the six recognized names. *)
Definition keys_recognized {V} (acc : pydict V) : Prop :=
  forall k, k ∈ dict_keys acc -> k ∈ recognized_names.

(** The characters of a string. *)
Definition chars (s : string) : list ascii := list_ascii_of_string s.

(** A string, character by character. *)
Fixpoint map_chars (f : ascii -> ascii) (s : string) : string :=
  match s with
  | EmptyString => EmptyString
  | String c s' => String (f c) (map_chars f s')
  end.

(** The label read off the name in one pass: an underscore becomes a space,
    the character that opens a word is put in upper case, every other one in
    lower case; [start] says that a word opens here. *)
Fixpoint label_go (start : bool) (s : string) : string :=
  match s with
  | EmptyString => EmptyString
  | String c s' =>
      if decide (c = "_"%char) then String " "%char (label_go true s')
      else String (if start then char_upper c else char_lower c) (label_go false s')
  end.

(** * Properties *)

(** ** Dictionaries *)

Section PyDictFacts.
Context {V : Type}.
Implicit Types (d : pydict V) (k : string) (v : V).

Lemma dict_get_setitem_eq k v d : dict_get k (dict_setitem k v d) = Some v.
Proof.
  induction d as [|[k' v'] d IH]; simpl.
  - by rewrite decide_True.
  - destruct (decide (k = k')) as [->|Hne]; simpl.
    + by rewrite decide_True.
    + by rewrite decide_False.
Qed.

Lemma dict_get_setitem_ne k k' v d :
  k <> k' -> dict_get k' (dict_setitem k v d) = dict_get k' d.
Proof.
  intros Hne. induction d as [|[k0 v0] d IH]; simpl.
  - by rewrite decide_False.
  - destruct (decide (k = k0)) as [->|Hk]; simpl.
    + by rewrite !decide_False.
    + by rewrite IH.
Qed.

Lemma dict_get_setitem k k' v d :
  dict_get k' (dict_setitem k v d) = if decide (k = k') then Some v else dict_get k' d.
Proof.
  destruct (decide (k = k')) as [->|Hne].
  - apply dict_get_setitem_eq.
  - by apply dict_get_setitem_ne.
Qed.

Lemma dict_setitem_id k v d : dict_get k d = Some v -> dict_setitem k v d = d.
Proof.
  induction d as [|[k' v'] d IH]; simpl; [done|].
  destruct (decide (k = k')) as [->|Hne]; [congruence|].
  intros H. by rewrite IH.
Qed.

Lemma dict_keys_setitem k v d k' :
  k' ∈ dict_keys (dict_setitem k v d) <-> k' = k \/ k' ∈ dict_keys d.
Proof.
  unfold dict_keys. induction d as [|[k0 v0] d IH]; simpl.
  - rewrite list_elem_of_singleton, elem_of_nil. tauto.
  - destruct (decide (k = k0)) as [->|Hne]; simpl.
    + rewrite !elem_of_cons. tauto.
    + rewrite !elem_of_cons, IH. tauto.
Qed.

Lemma dict_ok_setitem k v d : dict_ok d -> dict_ok (dict_setitem k v d).
Proof.
  unfold dict_ok. induction d as [|[k0 v0] d IH]; simpl.
  - intros _. apply NoDup_singleton.
  - rewrite NoDup_cons. intros [Hnin Hnd].
    destruct (decide (k = k0)) as [->|Hne]; simpl.
    + by apply NoDup_cons.
    + apply NoDup_cons. split; [|by apply IH].
      intros Hin. apply (dict_keys_setitem k v d k0) in Hin. naive_solver.
Qed.

Lemma dict_get_None k d : dict_get k d = None <-> k ∉ dict_keys d.
Proof.
  unfold dict_keys. induction d as [|[k0 v0] d IH]; simpl.
  - split; [intros _; apply not_elem_of_nil | done].
  - rewrite not_elem_of_cons.
    destruct (decide (k = k0)) as [->|Hne]; [|rewrite IH]; naive_solver.
Qed.

Lemma dict_get_Some_elem k v d : dict_get k d = Some v -> (k, v) ∈ d.
Proof.
  induction d as [|[k0 v0] d IH]; simpl; [done|].
  destruct (decide (k = k0)) as [->|Hne].
  - intros [= ->]. left.
  - intros H. right. by apply IH.
Qed.

Lemma dict_get_elem_NoDup k v d : dict_ok d -> (k, v) ∈ d -> dict_get k d = Some v.
Proof.
  unfold dict_ok, dict_keys. induction d as [|[k0 v0] d IH]; simpl.
  - intros _ H. by apply elem_of_nil in H.
  - rewrite NoDup_cons. intros [Hnin Hnd] Hin.
    apply elem_of_cons in Hin as [[= -> ->]|Hin].
    + by rewrite decide_True.
    + rewrite decide_False; [by apply IH|].
      intros ->. apply Hnin. apply list_elem_of_fmap. by exists (k0, v).
Qed.

(** A dict with unique keys is read the same in any order of its items. *)
Lemma dict_get_perm k d d' : dict_ok d -> d ≡ₚ d' -> dict_get k d = dict_get k d'.
Proof.
  intros Hok Hp.
  assert (Hok' : dict_ok d').
  { unfold dict_ok, dict_keys in *. by rewrite <- Hp. }
  destruct (dict_get k d) as [v|] eqn:H1.
  - symmetry. apply dict_get_elem_NoDup; [done|].
    rewrite <- Hp. by apply dict_get_Some_elem.
  - destruct (dict_get k d') as [v'|] eqn:H2; [|done].
    apply dict_get_Some_elem in H2. rewrite <- Hp in H2.
    apply (dict_get_elem_NoDup _ _ _ Hok) in H2. congruence.
Qed.
End PyDictFacts.

(** ** Flattening *)

Lemma top_not_dur n : n ∈ top_names -> n ∉ dur_names.
Proof.
  unfold top_names, dur_names. rewrite !elem_of_cons, !elem_of_nil.
  intros [->|[->|[->|[]]]]; naive_solver.
Qed.

Lemma top_not_durations n : n ∈ top_names -> n <> "durations".
Proof.
  unfold top_names. rewrite !elem_of_cons, !elem_of_nil.
  intros [->|[->|[->|[]]]]; discriminate.
Qed.

Lemma entry_ok_cons k v members :
  entry_ok (JObj ((k, v) :: members)) ->
  (k ∉ dict_keys members) /\ entry_ok (JObj members) /\
  (k = "durations" -> exists sub, v = JObj sub /\ dict_ok sub).
Proof.
  simpl. unfold dict_ok at 1. simpl. rewrite NoDup_cons.
  intros [[Hnin Hnd] Hdur].
  destruct (decide ("durations" = k)) as [<-|Hne].
  - split; [done|]. split.
    + split; [done|]. apply dict_get_None in Hnin. by rewrite Hnin.
    + intros _. destruct v; try done. by eexists.
  - split; [done|]. split; [done|]. by intros ->.
Qed.

(** The inner loop over [state.items()] records the recognized durations. *)
Lemma durations_loop sub acc :
  dict_ok sub ->
  exists acc',
    for_each durations_body sub acc = Ok acc' /\
    (dict_ok acc -> dict_ok acc') /\
    forall n, dict_get n acc' =
              if bool_decide (n ∈ dur_names) then
                match dict_get n sub with
                | Some v => Some (make_attrs n v)
                | None => dict_get n acc
                end
              else dict_get n acc.
Proof.
  revert acc. induction sub as [|[k v] sub IH]; intros acc Hok.
  - exists acc. split; [done|]. split; [done|].
    intros n. simpl. by destruct (bool_decide _).
  - unfold dict_ok in Hok. simpl in Hok. apply NoDup_cons in Hok as [Hnin Hnd].
    simpl. case_bool_decide as Hk.
    + destruct (IH (dict_setitem k (make_attrs k v) acc) Hnd) as (acc' & Hrun & Hpres & Hget).
      exists acc'. split; [done|]. split.
      { intros Hacc. by apply Hpres, dict_ok_setitem. }
      intros n. rewrite Hget. case_bool_decide as Hn.
      * destruct (decide (n = k)) as [->|Hne].
        -- apply dict_get_None in Hnin. rewrite Hnin. apply dict_get_setitem_eq.
        -- destruct (dict_get n sub); [done|]. by apply dict_get_setitem_ne.
      * apply dict_get_setitem_ne. by intros ->.
    + destruct (IH acc Hnd) as (acc' & Hrun & Hpres & Hget).
      exists acc'. split; [done|]. split; [done|].
      intros n. rewrite Hget. case_bool_decide as Hn; [|done].
      rewrite decide_False; [done|]. by intros ->.
Qed.

Ltac case_mem P H :=
  destruct (decide P) as [H|H];
  [ rewrite ?(bool_decide_eq_true_2 P H) | rewrite ?(bool_decide_eq_false_2 P H) ].

(** One turn of the loop over [value.items()]. *)
Lemma attribute_step k v acc :
  (k = "durations" -> exists sub, v = JObj sub /\ dict_ok sub) ->
  exists acc',
    attribute_body (k, v) acc = Ok acc' /\
    (dict_ok acc -> dict_ok acc') /\
    forall n, dict_get n acc' =
              match entry_value n (JObj [(k, v)]) with
              | Some w => Some (make_attrs n w)
              | None => dict_get n acc
              end.
Proof.
  intros Hdur. unfold attribute_body, entry_value. simpl.
  destruct (decide (k = "durations")) as [Hk|Hk].
  - destruct (Hdur Hk) as (sub & -> & Hsub). subst k. simpl.
    destruct (durations_loop sub acc Hsub) as (acc' & Hrun & Hpres & Hget).
    exists acc'. split; [done|]. split; [done|].
    intros n. rewrite Hget.
    case_mem (n ∈ dur_names) Hd.
    + rewrite (bool_decide_eq_false_2 (n ∈ top_names))
        by (intros H; by apply top_not_dur in H).
      by destruct (dict_get n sub).
    + case_mem (n ∈ top_names) Ht; [|done].
      rewrite decide_False; [done|]. by apply top_not_durations.
  - case_mem (k ∈ top_names) Hkt.
    + eexists. split; [done|]. split; [apply dict_ok_setitem|].
      intros n. rewrite dict_get_setitem.
      destruct (decide (k = n)) as [->|Hne].
      * by rewrite bool_decide_eq_true_2, decide_True.
      * rewrite (decide_False (P := n = k)) by done.
        rewrite (decide_False (P := "durations" = k)) by done.
        by repeat case_bool_decide.
    + exists acc. split; [done|]. split; [done|].
      intros n. rewrite (decide_False (P := "durations" = k)) by done.
      case_mem (n ∈ top_names) Hn.
      * rewrite decide_False; [done|]. by intros ->.
      * by case_bool_decide.
Qed.

(** The loop over [value.items()] records what the entry gives to each name. *)
Lemma attribute_loop members acc :
  entry_ok (JObj members) ->
  exists acc',
    for_each attribute_body members acc = Ok acc' /\
    (dict_ok acc -> dict_ok acc') /\
    forall n, dict_get n acc' =
              match entry_value n (JObj members) with
              | Some v => Some (make_attrs n v)
              | None => dict_get n acc
              end.
Proof.
  revert acc. induction members as [|[k v] members IH]; intros acc Hok.
  - exists acc. split; [done|]. split; [done|].
    intros n. simpl. by repeat case_bool_decide.
  - apply entry_ok_cons in Hok as (Hnin & Hok & Hdur).
    destruct (attribute_step k v acc Hdur) as (acc2 & Hrun2 & Hpres2 & Hget2).
    destruct (IH acc2 Hok) as (acc' & Hrun & Hpres & Hget).
    exists acc'. split; [cbn [for_each]; by rewrite Hrun2|]. split; [naive_solver|].
    intros n. rewrite Hget, Hget2. clear Hget Hget2.
    destruct Hok as [Hnd Hdur'].
    simpl. case_mem (n ∈ top_names) Hn.
    + destruct (decide (n = k)) as [->|Hne].
      * apply dict_get_None in Hnin. by rewrite Hnin.
      * by destruct (dict_get n members).
    + case_mem (n ∈ dur_names) Hd; [|done].
      destruct (decide ("durations" = k)) as [<-|Hne].
      * apply dict_get_None in Hnin. rewrite Hnin. by destruct v.
      * destruct (dict_get "durations" members) as [[]|]; try done.
Qed.

(** The loop over the robot sequence. *)
Lemma robot_loop robot acc :
  Forall entry_ok robot ->
  exists acc',
    for_each robot_body robot acc = Ok acc' /\
    (dict_ok acc -> dict_ok acc') /\
    forall n, dict_get n acc' =
              match document_value n robot with
              | Some v => Some (make_attrs n v)
              | None => dict_get n acc
              end.
Proof.
  intros Hall. revert acc. induction Hall as [|e robot He Hall IH]; intros acc.
  - by exists acc.
  - assert (Hstep : exists acc1,
      robot_body e acc = Ok acc1 /\ (dict_ok acc -> dict_ok acc1) /\
      forall n, dict_get n acc1 =
        match entry_value n e with
        | Some v => Some (make_attrs n v)
        | None => dict_get n acc
        end).
    { destruct e; try done.
      - by exists acc.
      - by apply attribute_loop. }
    destruct Hstep as (acc1 & Hrun1 & Hpres1 & Hget1).
    destruct (IH acc1) as (acc' & Hrun & Hpres & Hget).
    exists acc'. split; [cbn [for_each]; by rewrite Hrun1|]. split; [naive_solver|].
    intros n. rewrite Hget, Hget1. simpl.
    by destruct (document_value n robot).
Qed.

(** On an accepted robot sequence the flattening loop completes, and the
    transient dict holds, for every name, the value the document gives it. *)
Lemma flatten_robot_ok robot :
  Forall entry_ok robot ->
  exists flat,
    flatten_robot (JArr robot) = Ok flat /\
    dict_ok flat /\
    forall n, dict_get n flat = make_attrs n <$> document_value n robot.
Proof.
  intros Hall.
  destruct (robot_loop robot [] Hall) as (flat & Hrun & Hpres & Hget).
  exists flat. split; [done|]. split; [apply Hpres, NoDup_nil_2|].
  intros n. rewrite Hget. by destruct (document_value n robot).
Qed.

(** Only the six recognized names ever get a value. *)
Lemma entry_value_recognized n e v :
  entry_value n e = Some v -> n ∈ recognized_names.
Proof.
  unfold recognized_names. rewrite elem_of_app.
  destruct e; simpl; try done.
  case_mem (n ∈ top_names) Ht; [by left|].
  case_mem (n ∈ dur_names) Hd; [by right|done].
Qed.

Lemma document_value_recognized n robot v :
  document_value n robot = Some v -> n ∈ recognized_names.
Proof.
  induction robot as [|e robot IH]; simpl; [done|].
  destruct (document_value n robot); [done|].
  apply entry_value_recognized.
Qed.

(** A null entry is skipped, wherever it stands. *)
Lemma for_each_app {A S} (body : A -> S -> result S) xs ys s :
  for_each body (xs ++ ys) s = (s' <- for_each body xs s ;; for_each body ys s').
Proof.
  revert s. induction xs as [|x xs IH]; intros s; simpl; [done|].
  destruct (body x s); [apply IH | done].
Qed.

Lemma flatten_robot_skips_null r1 r2 :
  flatten_robot (JArr (r1 ++ JNull :: r2)) = flatten_robot (JArr (r1 ++ r2)).
Proof.
  unfold flatten_robot. simpl. rewrite !for_each_app.
  by destruct (for_each robot_body r1 []).
Qed.

(** A key that is not recognized leaves the transient dict as it is. *)
Lemma attribute_body_ignores k v acc :
  k ∉ top_names -> k <> "durations" -> attribute_body (k, v) acc = Ok acc.
Proof.
  intros Ht Hd. unfold attribute_body.
  by rewrite bool_decide_eq_false_2, decide_False.
Qed.

Lemma durations_body_ignores k v acc :
  k ∉ dur_names -> durations_body (k, v) acc = Ok acc.
Proof. intros Hd. unfold durations_body. by rewrite bool_decide_eq_false_2. Qed.

(** C1 (as stated, refuted): a robot entry that is a mapping, but whose
    [durations] member is not one, satisfies the precondition "each entry is
    null or a mapping", and the flattening produces no entries at all:
    [state.items()] raises [AttributeError]. *)
Lemma C1_durations_not_mapping :
  Forall null_or_mapping [JObj [("mode", JStr "filter"); ("durations", JNum 5)]] /\
  flatten_robot (JArr [JObj [("mode", JStr "filter"); ("durations", JNum 5)]])
  = Raise AttributeError /\
  shadow_entries (response_of [JObj [("mode", JStr "filter"); ("durations", JNum 5)]])
  = Raise AttributeError.
Proof. split; [by repeat constructor | split; reflexivity]. Qed.

(** C1 (amended): for every shadow document whose robot entries are each
    null or a mapping whose [durations] member, when present, is itself a
    mapping, the flattening completes and the transient dict has unique
    keys and holds, under each name [n], exactly [{"name": n, "state": v}]
    where [v] is the value the document gives to [n]: read from a top-level
    key for [mode], [cycle], [cycleStartTime], from inside [durations] for
    [quickTim], [deepTim], [stepper], from the last robot entry that has it.
    No other name gets an entry; a null robot entry adds nothing; a key that
    is not recognized changes nothing.  The document of the specification
    yields exactly the six entries, and parsing it into a new system
    registers exactly six devices with those states. *)
Theorem C1_flatten_exact response data robot :
  response_json response = Ok data ->
  robot_root data = Ok (JArr robot) ->
  Forall entry_ok robot ->
  (exists flat,
      shadow_entries response = Ok flat /\
      dict_ok flat /\
      (forall n, dict_get n flat = make_attrs n <$> document_value n robot) /\
      (forall n, n ∈ dict_keys flat -> n ∈ recognized_names)) /\
  (forall r1 r2,
      flatten_robot (JArr (r1 ++ JNull :: r2)) = flatten_robot (JArr (r1 ++ r2))) /\
  (forall k v acc,
      k ∉ top_names -> k <> "durations" -> attribute_body (k, v) acc = Ok acc) /\
  (forall k v acc, k ∉ dur_names -> durations_body (k, v) acc = Ok acc) /\
  shadow_entries (response_of [example_entry]) =
    Ok [("mode", [("name", JStr "mode"); ("state", JStr "filter")]);
        ("cycle", [("name", JStr "cycle"); ("state", JStr "A")]);
        ("cycleStartTime", [("name", JStr "cycleStartTime"); ("state", JNum 123)]);
        ("quickTim", [("name", JStr "quickTim"); ("state", JNum 5)]);
        ("deepTim", [("name", JStr "deepTim"); ("state", JNum 10)]);
        ("stepper", [("name", JStr "stepper"); ("state", JNum 2)])] /\
  (let st' := (_parse_shadow_response (response_of [example_entry])
                 (new_system "SN0001" "token-0" None)).2 in
   dom (devices st') =
     ({["mode"; "cycle"; "cycleStartTime"; "quickTim"; "deepTim"; "stepper"]} : gset string) /\
   device_at st' "mode" = Some (mkDevice CyclonextAttributeSensor
                                  [("name", JStr "mode"); ("state", JStr "filter")]) /\
   device_at st' "cycle" = Some (mkDevice CyclonextAttributeSensor
                                   [("name", JStr "cycle"); ("state", JStr "A")]) /\
   device_at st' "cycleStartTime" =
     Some (mkDevice CyclonextAttributeSensor
             [("name", JStr "cycleStartTime"); ("state", JNum 123)]) /\
   device_at st' "quickTim" = Some (mkDevice CyclonextAttributeSensor
                                      [("name", JStr "quickTim"); ("state", JNum 5)]) /\
   device_at st' "deepTim" = Some (mkDevice CyclonextAttributeSensor
                                     [("name", JStr "deepTim"); ("state", JNum 10)]) /\
   device_at st' "stepper" = Some (mkDevice CyclonextAttributeSensor
                                     [("name", JStr "stepper"); ("state", JNum 2)]) /\
   device_at st' "ignored" = None /\
   length (heap st') = 6%nat).
Proof.
  intros Hjson Hroot Hall. split; [|split; [|split; [|split; [|split]]]].
  - destruct (flatten_robot_ok robot Hall) as (flat & Hrun & Hok & Hget).
    exists flat. split.
    { unfold shadow_entries. rewrite Hjson. simpl. by rewrite Hroot. }
    split; [done|]. split; [done|].
    intros n Hin.
    destruct (dict_get n flat) as [a|] eqn:Ha.
    + rewrite Hget in Ha.
      destruct (document_value n robot) as [v|] eqn:Hv; [|done].
      by eapply document_value_recognized.
    + by apply dict_get_None in Ha.
  - apply flatten_robot_skips_null.
  - apply attribute_body_ignores.
  - apply durations_body_ignores.
  - reflexivity.
  - cbv zeta. split; [|by repeat split].
    apply set_eq. intros k. rewrite elem_of_dom.
    set (st' := (_parse_shadow_response _ _).2).
    assert (Hdev : devices st' =
                   list_to_map [("mode", 0%nat); ("cycle", 1%nat);
                                ("cycleStartTime", 2%nat); ("quickTim", 3%nat);
                                ("deepTim", 4%nat); ("stepper", 5%nat)])
      by (vm_compute; reflexivity).
    rewrite Hdev. clear Hdev st'. simpl.
    rewrite !elem_of_union, !elem_of_singleton.
    repeat (rewrite lookup_insert; case_decide; [subst; split; eauto 10|]).
    rewrite lookup_empty. split; [by intros [? ?]|]. naive_solver.
Qed.

Lemma C1_flatten_exact_witness :
  exists flat,
    shadow_entries (response_of [JNull; example_entry]) = Ok flat /\
    dict_get "deepTim" flat = Some [("name", JStr "deepTim"); ("state", JNum 10)] /\
    dict_get "ignored" flat = None.
Proof.
  assert (Hok : Forall entry_ok [JNull; example_entry]).
  { apply (bool_decide_unpack _). vm_compute. exact I. }
  destruct (C1_flatten_exact (response_of [JNull; example_entry]) _ _
              eq_refl eq_refl Hok)
    as [(flat & Hrun & _ & Hget & _) _].
  exists flat. split; [exact Hrun|]. by rewrite !Hget.
Defined.

(** ** Exceptions of the flattening *)

Lemma for_each_raises {A S} (P : exn -> Prop) (body : A -> S -> result S) xs :
  (forall x s e, body x s = Raise e -> P e) ->
  forall s e, for_each body xs s = Raise e -> P e.
Proof.
  intros Hbody. induction xs as [|x xs IH]; intros s e; simpl; [done|].
  destruct (body x s) as [s1|e1] eqn:Hx; [apply IH|].
  intros [= <-]. by eapply Hbody.
Qed.

Lemma durations_body_total kv acc : exists acc', durations_body kv acc = Ok acc'.
Proof. destruct kv as [k v]. unfold durations_body. case_bool_decide; eauto. Qed.

Lemma attribute_body_raises kv acc e :
  attribute_body kv acc = Raise e -> document_error e.
Proof.
  destruct kv as [k v]. unfold attribute_body.
  destruct (decide (k = "durations")); [|done].
  destruct v; simpl; try (intros [= <-]; right; by right).
  apply for_each_raises. intros x s e' H.
  destruct (durations_body_total x s) as (s' & Hs). congruence.
Qed.

Lemma robot_body_raises value acc e :
  robot_body value acc = Raise e -> document_error e.
Proof.
  destruct value; simpl; try done; try (intros [= <-]; right; by right).
  apply for_each_raises. apply attribute_body_raises.
Qed.

Lemma py_getitem_raises d key e : py_getitem d key = Raise e -> document_error e.
Proof.
  destruct d; simpl; try (intros [= <-]; right; by left).
  destruct (dict_get key members); [done|]. intros [= <-]. by left.
Qed.

Lemma robot_root_raises data e : robot_root data = Raise e -> document_error e.
Proof.
  unfold robot_root.
  destruct (py_getitem data "state") as [a|] eqn:Ha; simpl;
    [|intros [= <-]; by eapply py_getitem_raises].
  destruct (py_getitem a "reported") as [b|] eqn:Hb; simpl;
    [|intros [= <-]; by eapply py_getitem_raises].
  destruct (py_getitem b "equipment") as [c|] eqn:Hc; simpl;
    [|intros [= <-]; by eapply py_getitem_raises].
  apply py_getitem_raises.
Qed.

Lemma flatten_robot_raises root e : flatten_robot root = Raise e -> document_error e.
Proof.
  unfold flatten_robot.
  destruct (py_iter root) as [entries|e1] eqn:Hi; simpl.
  - apply for_each_raises. apply robot_body_raises.
  - intros [= <-]. destruct root; simpl in Hi; try done;
      injection Hi as <-; right; by left.
Qed.

Lemma document_error_not_offline e :
  document_error e -> e <> AqualinkSystemOfflineException.
Proof. intros [H|[H|H]]; by subst e. Qed.

(** A parse raises what [response.json()] raised, or one of the builtin
    exceptions of a document of the wrong form: it signals nothing of its
    own. *)
Lemma shadow_entries_raises response e :
  shadow_entries response = Raise e ->
  response_json response = Raise e \/ document_error e.
Proof.
  unfold shadow_entries.
  destruct (response_json response) as [data|e0]; simpl; [|intros [= ->]; by left].
  intros H. right.
  destruct (robot_root data) as [root|e1] eqn:Hroot; simpl in H.
  - by eapply flatten_robot_raises.
  - injection H as <-. by eapply robot_root_raises.
Qed.

(** ** Merging *)

Lemma state_eta st :
  mkState (serial st) (last_refresh st) (online st) (devices st) (heap st)
          (id_token st) (trace st) (clock_reads st) = st.
Proof. by destruct st. Qed.

Lemma set_heap_same st : set_heap (heap st) st = st.
Proof. apply state_eta. Qed.

Lemma from_data_make_attrs k s :
  from_data (make_attrs k s) = Ok (mkDevice (class_of_name k) (make_attrs k s)).
Proof. reflexivity. Qed.

(** The variant is decided by the [name] attribute alone. *)
Lemma from_data_class data d n :
  from_data data = Ok d -> dict_get "name" data = Some (JStr n) ->
  dev_class d = class_of_name n /\ dev_data d = data.
Proof.
  unfold from_data. intros H Hn. rewrite Hn in H. by injection H as <-.
Qed.

Lemma for_each_M_cons {A} (body : A -> M unit) x xs st :
  for_each_M body (x :: xs) st =
  match body x st with
  | (Ok _, st1) => for_each_M body xs st1
  | (Raise e, st1) => (Raise e, st1)
  end.
Proof. reflexivity. Qed.

(** The loop over [v.items()] overwrites the attributes of one object. *)
Lemma data_loop l v st :
  for_each_M (fun '(dk, dv) => data_setitem l dk dv) v st =
  (Ok tt, set_heap (alter (overwrite v) l (heap st)) st).
Proof.
  revert st. induction v as [|[dk dv] v IH]; intros st.
  - simpl. unfold ret. f_equal.
    rewrite list_alter_id; [by rewrite set_heap_same|]. by intros [].
  - rewrite for_each_M_cons. simpl. rewrite IH. f_equal. simpl.
    unfold set_heap. simpl. f_equal.
    rewrite list_alter_alter_eq. by apply list_alter_ext.
Qed.

Lemma merge_body_eq k v st :
  merge_body (k, v) st =
  match devices st !! k with
  | Some l => (Ok tt, set_heap (alter (overwrite v) l (heap st)) st)
  | None =>
      match from_data v with
      | Ok d => (Ok tt, set_devices (<[k := length (heap st)]> (devices st))
                          (set_heap (heap st ++ [d]) st))
      | Raise e => (Raise e, st)
      end
  end.
Proof.
  unfold merge_body, bind, get. simpl.
  destruct (devices st !! k) as [l|]; [apply data_loop|].
  unfold lift. by destruct (from_data v).
Qed.

Lemma merge_body_shape k s st :
  merge_body (k, make_attrs k s) st = (Ok tt, merge_state k s st).
Proof.
  rewrite merge_body_eq. unfold merge_state.
  by destruct (devices st !! k).
Qed.

Lemma extends_refl st : extends st st.
Proof. split; eauto. Qed.

Lemma extends_trans st1 st2 st3 : extends st1 st2 -> extends st2 st3 -> extends st1 st3.
Proof.
  intros [] []. split; try congruence; eauto; try lia.
  intros l d Hd. destruct (ext_class0 l d Hd) as (d' & Hd' & Hc).
  destruct (ext_class1 l d' Hd') as (d'' & Hd'' & Hc').
  exists d''. split; [done|congruence].
Qed.

Lemma merge_body_extends kv st : extends st (merge_body kv st).2.
Proof.
  destruct kv as [k v]. rewrite merge_body_eq.
  destruct (devices st !! k) as [l|] eqn:Hk; simpl.
  - split; simpl; try done.
    + by rewrite length_alter.
    + intros l' d Hd. rewrite list_lookup_alter.
      case_decide as Hl; [|by exists d].
      subst l'. rewrite Hd. simpl. by eexists.
  - destruct (from_data v) as [d|e]; simpl; [|apply extends_refl].
    split; simpl; try done.
    + intros k' l' Hk'. rewrite lookup_insert_ne; [done|]. congruence.
    + rewrite length_app. lia.
    + intros l' d' Hd'. exists d'. split; [|done]. by apply lookup_app_l_Some.
Qed.

Lemma merge_loop_extends flat st : extends st (for_each_M merge_body flat st).2.
Proof.
  revert st. induction flat as [|kv flat IH]; intros st.
  - apply extends_refl.
  - rewrite for_each_M_cons.
    pose proof (merge_body_extends kv st) as Hstep.
    destruct (merge_body kv st) as [[[]|e] st1]; simpl in *; [|done].
    eapply extends_trans; [done|apply IH].
Qed.

Lemma parse_eq response st :
  _parse_shadow_response response st =
  match shadow_entries response with
  | Ok flat => for_each_M merge_body flat st
  | Raise e => (Raise e, st)
  end.
Proof.
  unfold _parse_shadow_response, bind, lift.
  by destruct (shadow_entries response).
Qed.

Lemma parse_extends response st : extends st (_parse_shadow_response response st).2.
Proof.
  rewrite parse_eq. destruct (shadow_entries response); simpl.
  - apply merge_loop_extends.
  - apply extends_refl.
Qed.

(** ** The transient dict, for any document *)

Lemma for_each_invariant {A S} (P : S -> Prop) (body : A -> S -> result S) xs :
  (forall x s s', P s -> body x s = Ok s' -> P s') ->
  forall s s', P s -> for_each body xs s = Ok s' -> P s'.
Proof.
  intros Hbody. induction xs as [|x xs IH]; intros s s' Hs; simpl.
  - by intros [= <-].
  - destruct (body x s) as [s1|e] eqn:Hx; [|done]. eauto.
Qed.

Lemma shape_setitem k v recs :
  dict_setitem k (make_attrs k v) (shape recs) = shape (dict_setitem k v recs).
Proof.
  unfold shape. induction recs as [|[k0 v0] recs IH]; [done|].
  cbn [fmap list_fmap dict_setitem fst snd].
  destruct (decide (k = k0)) as [->|Hne]; [done|].
  cbn [fmap list_fmap fst snd]. f_equal. apply IH.
Qed.

Lemma dict_get_shape k recs : dict_get k (shape recs) = make_attrs k <$> dict_get k recs.
Proof.
  unfold shape. induction recs as [|[k0 v0] recs IH]; [done|].
  cbn [fmap list_fmap dict_get fst snd].
  destruct (decide (k = k0)) as [->|Hne]; [done|apply IH].
Qed.

Lemma shaped_setitem k v acc : shaped acc -> shaped (dict_setitem k (make_attrs k v) acc).
Proof.
  intros (recs & -> & Hok). exists (dict_setitem k v recs).
  split; [apply shape_setitem | by apply dict_ok_setitem].
Qed.

Lemma durations_body_shaped kv acc acc' :
  shaped acc -> durations_body kv acc = Ok acc' -> shaped acc'.
Proof.
  destruct kv as [k v]. unfold durations_body. intros Hs.
  case_bool_decide; intros [= <-]; [by apply shaped_setitem | done].
Qed.

Lemma attribute_body_shaped kv acc acc' :
  shaped acc -> attribute_body kv acc = Ok acc' -> shaped acc'.
Proof.
  destruct kv as [k v]. unfold attribute_body. intros Hs.
  assert (Hs1 : shaped (if bool_decide (k ∈ top_names)
                        then dict_setitem k (make_attrs k v) acc else acc)).
  { case_bool_decide; [by apply shaped_setitem | done]. }
  destruct (decide (k = "durations")); [|by intros [= <-]].
  destruct v; simpl; try done.
  intros Hrun.
  eapply (for_each_invariant shaped); [apply durations_body_shaped|exact Hs1|exact Hrun].
Qed.

Lemma robot_body_shaped e acc acc' :
  shaped acc -> robot_body e acc = Ok acc' -> shaped acc'.
Proof.
  intros Hs. destruct e; simpl; try done.
  - by intros [= <-].
  - intros Hrun.
    eapply (for_each_invariant shaped); [apply attribute_body_shaped|exact Hs|exact Hrun].
Qed.

Lemma shadow_entries_shaped response flat :
  shadow_entries response = Ok flat -> shaped flat.
Proof.
  unfold shadow_entries, flatten_robot.
  destruct (response_json response) as [data|]; simpl; [|done].
  destruct (robot_root data) as [root|]; simpl; [|done].
  destruct (py_iter root) as [entries|]; simpl; [|done].
  apply (for_each_invariant shaped); [apply robot_body_shaped|].
  exists []. split; [done|apply NoDup_nil_2].
Qed.

(** Merging a transient dict of that form never raises. *)
Lemma merge_loop_total recs st :
  exists st', for_each_M merge_body (shape recs) st = (Ok tt, st').
Proof.
  revert st. induction recs as [|[k s] recs IH]; intros st.
  - by exists st.
  - unfold shape. cbn [fmap list_fmap fst snd].
    rewrite for_each_M_cons, merge_body_shape. apply IH.
Qed.

(** A parse that raises has raised before the merge, and has changed
    nothing. *)
Lemma parse_raise response st e st' :
  _parse_shadow_response response st = (Raise e, st') ->
  st' = st /\ shadow_entries response = Raise e.
Proof.
  rewrite parse_eq. destruct (shadow_entries response) as [flat|e'] eqn:Hflat.
  - destruct (shadow_entries_shaped _ _ Hflat) as (recs & -> & _).
    destruct (merge_loop_total recs st) as (st1 & ->). done.
  - by intros [= <- <-].
Qed.

(** ** The registry invariant and the contents after a merge *)

Lemma registry_ok_new serial_ token online_ : registry_ok (new_system serial_ token online_).
Proof. intros k l H. simpl in H. by rewrite lookup_empty in H. Qed.

Lemma registry_ok_inj st k1 k2 l :
  registry_ok st -> devices st !! k1 = Some l -> devices st !! k2 = Some l -> k1 = k2.
Proof.
  intros Hok H1 H2.
  destruct (Hok _ _ H1) as (d1 & Hd1 & Hn1).
  destruct (Hok _ _ H2) as (d2 & Hd2 & Hn2).
  congruence.
Qed.

Lemma device_at_Some st k l d :
  devices st !! k = Some l -> heap st !! l = Some d -> device_at st k = Some d.
Proof. unfold device_at. intros -> Hd. done. Qed.

(** On a device that carries its key as [name], the attribute loop only
    moves [state]. *)
Lemma overwrite_make_attrs d k s :
  dict_get "name" (dev_data d) = Some (JStr k) ->
  overwrite (make_attrs k s) d = mkDevice (dev_class d) (dict_setitem "state" s (dev_data d)).
Proof.
  intros Hn. unfold overwrite. simpl. by rewrite (dict_setitem_id _ _ _ Hn).
Qed.

Lemma merge_state_at k s st :
  registry_ok st ->
  device_at (merge_state k s st) k = Some (reconcile (device_at st k) k s).
Proof.
  intros Hok. unfold merge_state, device_at.
  destruct (devices st !! k) as [l|] eqn:Hk; simpl.
  - destruct (Hok _ _ Hk) as (d & Hd & Hn).
    rewrite Hk. simpl. rewrite list_lookup_alter_eq, Hd. simpl.
    by rewrite (overwrite_make_attrs _ _ _ Hn).
  - rewrite lookup_insert_eq. simpl. by rewrite list_lookup_middle.
Qed.

Lemma merge_state_other k s st k' :
  registry_ok st -> k' <> k ->
  device_at (merge_state k s st) k' = device_at st k'.
Proof.
  intros Hok Hne. unfold merge_state, device_at.
  destruct (devices st !! k) as [l|] eqn:Hk; simpl.
  - destruct (devices st !! k') as [l'|] eqn:Hk'; simpl; [|done].
    apply list_lookup_alter_ne. intros ->.
    apply Hne. by eapply registry_ok_inj.
  - rewrite lookup_insert_ne by done.
    destruct (devices st !! k') as [l'|] eqn:Hk'; simpl; [|done].
    destruct (Hok _ _ Hk') as (d & Hd & _).
    rewrite Hd. by apply lookup_app_l_Some.
Qed.

Lemma merge_state_ok k s st : registry_ok st -> registry_ok (merge_state k s st).
Proof.
  intros Hok k' l' Hk'.
  assert (Hat : exists d, device_at (merge_state k s st) k' = Some d /\
                          dict_get "name" (dev_data d) = Some (JStr k')).
  { destruct (decide (k' = k)) as [->|Hne].
    - rewrite merge_state_at by done. eexists. split; [done|].
      unfold reconcile, device_at.
      destruct (devices st !! k) as [l|] eqn:Hk; simpl; [|done].
      destruct (Hok _ _ Hk) as (d & Hd & Hn). rewrite Hd.
      cbn [dev_data]. by rewrite dict_get_setitem_ne.
    - rewrite merge_state_other by done.
      assert (Hin : exists l, devices st !! k' = Some l).
      { revert Hk'. unfold merge_state.
        destruct (devices st !! k); simpl; [eauto|].
        rewrite lookup_insert_ne by done. eauto. }
      destruct Hin as (l & Hl). destruct (Hok _ _ Hl) as (d & Hd & Hn).
      exists d. split; [by eapply device_at_Some|done]. }
  destruct Hat as (d & Hat & Hn). exists d. split; [|done].
  unfold device_at in Hat. by rewrite Hk' in Hat.
Qed.

(** The merge of a transient dict with unique keys: each of its names is
    reconciled once, every other name keeps its device. *)
Lemma merge_loop_contents recs st :
  registry_ok st -> dict_ok recs ->
  exists st',
    for_each_M merge_body (shape recs) st = (Ok tt, st') /\
    registry_ok st' /\
    forall k, device_at st' k =
              match dict_get k recs with
              | Some s => Some (reconcile (device_at st k) k s)
              | None => device_at st k
              end.
Proof.
  revert st. induction recs as [|[k0 s0] recs IH]; intros st Hok Hnd.
  - by exists st.
  - unfold dict_ok in Hnd. simpl in Hnd. apply NoDup_cons in Hnd as [Hnin Hnd].
    destruct (IH (merge_state k0 s0 st) (merge_state_ok _ _ _ Hok) Hnd)
      as (st' & Hrun & Hok' & Hat).
    exists st'. split; [|split; [done|]].
    + unfold shape. cbn [fmap list_fmap fst snd].
      by rewrite for_each_M_cons, merge_body_shape.
    + intros k. rewrite Hat. simpl.
      destruct (decide (k = k0)) as [->|Hne].
      * apply dict_get_None in Hnin. rewrite Hnin. by apply merge_state_at.
      * rewrite merge_state_other by done. done.
Qed.

Lemma merge_state_length k s st :
  length (heap (merge_state k s st)) =
  (length (heap st) + match devices st !! k with Some _ => 0 | None => 1 end)%nat.
Proof.
  unfold merge_state. destruct (devices st !! k); simpl.
  - rewrite length_alter. lia.
  - by rewrite length_app.
Qed.

Lemma merge_state_devices k s st k' :
  k' <> k -> devices (merge_state k s st) !! k' = devices st !! k'.
Proof.
  intros Hne. unfold merge_state. destruct (devices st !! k); simpl; [done|].
  by rewrite lookup_insert_ne.
Qed.

(** The number of names of a transient dict that the registry does not know
    yet. *)
Lemma absent_names_step k s st (recs : pydict json) :
  k ∉ dict_keys recs ->
  List.filter (fun kv => bool_decide (devices (merge_state k s st) !! kv.1 = None)) recs =
  List.filter (fun kv => bool_decide (devices st !! kv.1 = None)) recs.
Proof.
  intros Hnin. apply List.filter_ext_in. intros [k' s'] Hin. simpl.
  rewrite merge_state_devices; [done|].
  intros ->. apply Hnin. apply list_elem_of_fmap. exists (k, s').
  split; [done|]. by apply list_elem_of_In.
Qed.

(** One object is allocated for each new name, none for a known one. *)
Lemma merge_loop_length recs st st' :
  dict_ok recs ->
  for_each_M merge_body (shape recs) st = (Ok tt, st') ->
  length (heap st') =
  (length (heap st) +
   length (List.filter (fun kv => bool_decide (devices st !! kv.1 = None)) recs))%nat.
Proof.
  revert st. induction recs as [|[k s] recs IH]; intros st Hnd.
  - intros [= <-]. simpl. lia.
  - unfold dict_ok in Hnd. simpl in Hnd. apply NoDup_cons in Hnd as [Hnin Hnd].
    unfold shape. cbn [fmap list_fmap fst snd].
    rewrite for_each_M_cons, merge_body_shape. intros Hrun.
    rewrite (IH _ Hnd Hrun), merge_state_length, absent_names_step by done.
    simpl. destruct (devices st !! k); simpl; lia.
Qed.

(** A name that enters the registry during a merge denotes an object
    allocated by that merge, of the class its name selects. *)
Lemma merge_loop_created recs st st' k l :
  for_each_M merge_body (shape recs) st = (Ok tt, st') ->
  devices st !! k = None -> devices st' !! k = Some l ->
  (length (heap st) <= l)%nat /\
  exists d, heap st' !! l = Some d /\ dev_class d = class_of_name k.
Proof.
  revert st. induction recs as [|[k0 s0] recs IH]; intros st.
  - intros [= <-] H1 H2. congruence.
  - unfold shape. cbn [fmap list_fmap fst snd].
    rewrite for_each_M_cons, merge_body_shape. intros Hrun Hk Hk'.
    destruct (devices (merge_state k0 s0 st) !! k) as [l1|] eqn:Hk1.
    + pose proof (merge_loop_extends (shape recs) (merge_state k0 s0 st)) as Hext.
      fold (shape recs) in Hrun. rewrite Hrun in Hext. simpl in Hext.
      destruct (decide (k = k0)) as [->|Hne];
        [|rewrite merge_state_devices in Hk1 by done; congruence].
      assert (Hnew : l1 = length (heap st) /\
                     heap (merge_state k0 s0 st) !! l1 =
                     Some (mkDevice (class_of_name k0) (make_attrs k0 s0))).
      { revert Hk1. unfold merge_state. rewrite Hk. simpl.
        rewrite lookup_insert_eq. intros [= <-]. split; [done|].
        apply list_lookup_middle. done. }
      destruct Hnew as [-> Hd].
      rewrite (ext_devices _ _ Hext _ _ Hk1) in Hk'. injection Hk' as <-.
      split; [done|].
      destruct (ext_class _ _ Hext _ _ Hd) as (d' & Hd' & Hc). by exists d'.
    + destruct (IH _ Hrun Hk1 Hk') as [Hlen Hd]. split; [|done].
      rewrite merge_state_length in Hlen. lia.
Qed.

Lemma registry_ok_seen_mode : registry_ok seen_mode.
Proof.
  intros k l H. simpl in H. apply lookup_singleton_Some in H as [<- <-].
  by eexists.
Qed.

(** ** The reconciler *)

(** C6: in a registry that the parser has built (every key denotes a live
    device named by that key), a parse whose flattening gives [flat]
    completes, and for every entry [(name, {"name": name, "state": s})] of
    [flat]: if [name] is registered, the key keeps its object, the object
    keeps its class, and its attribute bag is the old one with only [state]
    set to [s] (every other attribute reads as before); if [name] is not
    registered, a new object of the class selected by the name is allocated
    and inserted under [name].  One object is allocated per new name and
    none for a registered one. *)
Theorem C6_merge_updates_in_place response st flat :
  registry_ok st ->
  shadow_entries response = Ok flat ->
  exists st',
    _parse_shadow_response response st = (Ok tt, st') /\
    registry_ok st' /\
    (forall name attrs, dict_get name flat = Some attrs ->
       exists s, attrs = make_attrs name s /\
         match devices st !! name with
         | Some l =>
             exists d, heap st !! l = Some d /\
               devices st' !! name = Some l /\
               heap st' !! l =
                 Some (mkDevice (dev_class d) (dict_setitem "state" s (dev_data d))) /\
               (forall key, key <> "state" ->
                  dict_get key (dict_setitem "state" s (dev_data d)) =
                  dict_get key (dev_data d))
         | None =>
             exists l, devices st' !! name = Some l /\
               (length (heap st) <= l)%nat /\
               heap st' !! l = Some (mkDevice (class_of_name name) attrs)
         end) /\
    length (heap st') =
      (length (heap st) +
       length (List.filter (fun kv => bool_decide (devices st !! kv.1 = None)) flat))%nat.
Proof.
  intros Hok Hflat.
  destruct (shadow_entries_shaped _ _ Hflat) as (recs & -> & Hnd).
  destruct (merge_loop_contents recs st Hok Hnd) as (st' & Hrun & Hok' & Hat).
  exists st'. rewrite parse_eq, Hflat.
  split; [done|]. split; [done|]. split.
  - intros name attrs. rewrite dict_get_shape.
    destruct (dict_get name recs) as [s|] eqn:Hs; [|done].
    intros [= <-]. exists s. split; [done|].
    specialize (Hat name). rewrite Hs in Hat.
    pose proof (merge_loop_extends (shape recs) st) as Hext.
    rewrite Hrun in Hext. simpl in Hext.
    destruct (devices st !! name) as [l|] eqn:Hl.
    + destruct (Hok _ _ Hl) as (d & Hd & Hn). exists d.
      pose proof (ext_devices _ _ Hext _ _ Hl) as Hl'.
      rewrite (device_at_Some _ _ _ _ Hl Hd) in Hat.
      unfold device_at in Hat. rewrite Hl' in Hat. simpl in Hat.
      split; [done|]. split; [done|]. split; [done|].
      intros key Hkey. by apply dict_get_setitem_ne.
    + unfold device_at in Hat. rewrite Hl in Hat. simpl in Hat.
      destruct (devices st' !! name) as [l|] eqn:Hl'; [|done].
      exists l. split; [done|].
      destruct (merge_loop_created _ _ _ _ _ Hrun Hl Hl') as [Hlen _].
      by split.
  - rewrite (merge_loop_length _ _ _ Hnd Hrun). f_equal.
    unfold shape. clear. induction recs as [|[k s] recs IH]; [done|].
    cbn [fmap list_fmap List.filter fst snd].
    destruct (bool_decide (devices st !! k = None)); simpl; by rewrite IH.
Qed.

Lemma C6_merge_updates_in_place_witness :
  exists st',
    _parse_shadow_response (response_of [JObj [("mode", JStr "waste")]]) seen_mode
    = (Ok tt, st') /\
    devices st' !! "mode" = Some 0%nat /\
    heap st' !! 0%nat =
      Some (mkDevice CyclonextAttributeSensor
              [("name", JStr "mode"); ("state", JStr "waste"); ("label", JStr "Mode")]) /\
    length (heap st') = 1%nat.
Proof.
  destruct (C6_merge_updates_in_place
              (response_of [JObj [("mode", JStr "waste")]]) seen_mode
              [("mode", make_attrs "mode" (JStr "waste"))]
              registry_ok_seen_mode eq_refl)
    as (st' & Hrun & _ & Hentries & Hlen).
  exists st'. split; [exact Hrun|].
  destruct (Hentries "mode" (make_attrs "mode" (JStr "waste")) eq_refl)
    as (s & Hs & d & Hd & Hl & Hh & _).
  injection Hs as <-. injection Hd as <-.
  split; [exact Hl|]. split; [exact Hh|exact Hlen].
Defined.

(** C7: the variant of a device is a function of its name alone: the factory
    builds the Prog variant for a name in [production], [boost], [low] and
    the AttributeSensor variant for any other name; every device that a
    parse creates (a name that was not registered and is afterwards) has the
    variant its name selects; and an object that existed before a parse has
    the same variant after it, whatever the outcome of the parse. *)
Theorem C7_variant_by_name response st :
  (forall data d n,
     from_data data = Ok d -> dict_get "name" data = Some (JStr n) ->
     dev_class d = if bool_decide (n ∈ ["production"; "boost"; "low"])
                   then CyclonextProg else CyclonextAttributeSensor) /\
  (forall k l,
     devices st !! k = None ->
     devices (_parse_shadow_response response st).2 !! k = Some l ->
     (length (heap st) <= l)%nat /\
     exists d, heap (_parse_shadow_response response st).2 !! l = Some d /\
               dev_class d = class_of_name k) /\
  (forall l d,
     heap st !! l = Some d ->
     exists d', heap (_parse_shadow_response response st).2 !! l = Some d' /\
                dev_class d' = dev_class d).
Proof.
  split; [|split].
  - intros data d n Hd Hn. by destruct (from_data_class _ _ _ Hd Hn) as [-> _].
  - intros k l Hk. rewrite parse_eq.
    destruct (shadow_entries response) as [flat|e] eqn:Hflat; simpl; [|congruence].
    destruct (shadow_entries_shaped _ _ Hflat) as (recs & -> & _).
    destruct (merge_loop_total recs st) as (st' & Hrun). rewrite Hrun. simpl.
    by apply merge_loop_created with (recs := recs).
  - intros l d Hd. by apply (ext_class _ _ (parse_extends response st)).
Qed.

Lemma C7_variant_by_name_witness :
  (exists d, from_data [("name", JStr "boost"); ("state", JNum 1)] = Ok d /\
             dev_class d = CyclonextProg) /\
  (exists d, heap (_parse_shadow_response (response_of [example_entry]) seen_mode).2
               !! 1%nat = Some d /\
             dev_class d = CyclonextAttributeSensor) /\
  (exists d, heap (_parse_shadow_response (response_of [example_entry]) seen_mode).2
               !! 0%nat = Some d /\
             dev_class d = CyclonextAttributeSensor).
Proof.
  destruct (C7_variant_by_name (response_of [example_entry]) seen_mode)
    as (Hfactory & Hcreated & Hkept).
  split; [|split].
  - exists (mkDevice CyclonextProg [("name", JStr "boost"); ("state", JNum 1)]).
    split; [reflexivity|].
    exact (Hfactory [("name", JStr "boost"); ("state", JNum 1)] _ "boost"
             eq_refl eq_refl).
  - destruct (Hcreated "cycle" 1%nat eq_refl eq_refl) as [_ Hd]. exact Hd.
  - exact (Hkept 0%nat _ eq_refl).
Defined.

(** C8: whatever the response and whatever the registry, every key of the
    registry before a parse is a key after it, and denotes the same object:
    the parse removes nothing, also when the document does not mention a
    name seen before and also when the parse raises. *)
Theorem C8_registry_only_grows response st :
  dom (devices st) ⊆ dom (devices (_parse_shadow_response response st).2) /\
  (forall k l, devices st !! k = Some l ->
               devices (_parse_shadow_response response st).2 !! k = Some l).
Proof.
  pose proof (parse_extends response st) as Hext. split.
  - intros k. rewrite !elem_of_dom. intros [l Hl].
    exists l. by apply (ext_devices _ _ Hext).
  - apply (ext_devices _ _ Hext).
Qed.

Lemma C8_registry_only_grows_witness :
  "mode" ∈ dom (devices (_parse_shadow_response
                           (response_of [JObj [("cycle", JStr "B")]]) seen_mode).2) /\
  devices (_parse_shadow_response
             (response_of [JObj [("cycle", JStr "B")]]) seen_mode).2 !! "mode"
  = Some 0%nat.
Proof.
  destruct (C8_registry_only_grows
              (response_of [JObj [("cycle", JStr "B")]]) seen_mode) as [Hdom Hsame].
  split.
  - apply Hdom. apply elem_of_dom. by exists 0%nat.
  - by apply Hsame.
Defined.

(** ** Contents of the registry after a parse *)

Lemma make_attrs_inj n v w : make_attrs n v = make_attrs n w -> v = w.
Proof. unfold make_attrs. simpl. by intros [= ->]. Qed.

Lemma parse_contents st response data robot :
  registry_ok st ->
  response_json response = Ok data ->
  robot_root data = Ok (JArr robot) ->
  Forall entry_ok robot ->
  exists st',
    _parse_shadow_response response st = (Ok tt, st') /\
    registry_ok st' /\
    forall k, device_at st' k =
              match document_value k robot with
              | Some s => Some (reconcile (device_at st k) k s)
              | None => device_at st k
              end.
Proof.
  intros Hok Hjson Hroot Hall.
  destruct (flatten_robot_ok robot Hall) as (flat & Hflat & _ & Hget).
  assert (Hent : shadow_entries response = Ok flat).
  { unfold shadow_entries. by rewrite Hjson; simpl; rewrite Hroot. }
  destruct (shadow_entries_shaped _ _ Hent) as (recs & -> & Hnd).
  destruct (merge_loop_contents recs st Hok Hnd) as (st' & Hrun & Hok' & Hat).
  exists st'. rewrite parse_eq, Hent. split; [done|]. split; [done|].
  intros k. rewrite Hat. specialize (Hget k). rewrite dict_get_shape in Hget.
  destruct (dict_get k recs) as [s|], (document_value k robot) as [s'|];
    simpl in Hget; try done.
  by apply (inj Some), make_attrs_inj in Hget as ->.
Qed.

(** ** Iteration order *)

Lemma document_value_elem n robot v :
  document_value n robot = Some v -> exists e, e ∈ robot /\ entry_value n e = Some v.
Proof.
  induction robot as [|e robot IH]; simpl; [done|].
  destruct (document_value n robot) as [w|].
  - intros [= ->]. destruct IH as (e' & Hin & Hv); [done|].
    exists e'. split; [by right|done].
  - intros Hv. exists e. split; [by left|done].
Qed.

Lemma document_value_None n robot :
  document_value n robot = None <-> forall e, e ∈ robot -> entry_value n e = None.
Proof.
  induction robot as [|e robot IH]; simpl.
  - split; [|done]. intros _ e H. by apply elem_of_nil in H.
  - destruct (document_value n robot) as [w|].
    + split; [done|]. intros H.
      assert (Some w = None); [|done]. apply IH. intros e' He'. apply H. by right.
    + split.
      * intros He e' [->|Hin]%elem_of_cons; [done|]. by apply IH.
      * intros H. apply H. by left.
Qed.

(** With consistent entries, the order of the robot sequence does not
    matter to the value a name gets. *)
Lemma document_value_perm n r r' :
  consistent r -> r ≡ₚ r' -> document_value n r = document_value n r'.
Proof.
  intros Hc Hp.
  destruct (document_value n r) as [v|] eqn:Hv, (document_value n r') as [v'|] eqn:Hv'.
  - apply document_value_elem in Hv as (e & He & Hev).
    apply document_value_elem in Hv' as (e' & He' & Hev').
    rewrite <- Hp in He'. f_equal. exact (Hc n e e' v v' He He' Hev Hev').
  - apply document_value_elem in Hv as (e & He & Hev).
    rewrite Hp in He. rewrite document_value_None in Hv'.
    rewrite (Hv' _ He) in Hev. done.
  - apply document_value_elem in Hv' as (e & He & Hev).
    rewrite <- Hp in He. rewrite document_value_None in Hv.
    rewrite (Hv _ He) in Hev. done.
  - done.
Qed.

Lemma dict_get_reordered n mid m' :
  Forall2 member_reordered mid m' ->
  match dict_get n mid, dict_get n m' with
  | Some v, Some v' => member_reordered (n, v) (n, v')
  | None, None => True
  | _, _ => False
  end.
Proof.
  induction 1 as [|[k v] [k' v'] mid m' [Hk Hv] Hall IH]; simpl; [done|].
  simpl in Hk. subst k'.
  destruct (decide (n = k)) as [->|Hne]; [|done].
  split; [done|]. exact Hv.
Qed.

Lemma Forall2_reordered_keys mid m' :
  Forall2 member_reordered mid m' -> dict_keys mid = dict_keys m'.
Proof.
  unfold dict_keys. induction 1 as [|[k v] [k' v'] mid m' [Hk Hv] Hall IH]; [done|].
  simpl in Hk. subst k'. cbn [fmap list_fmap fst]. f_equal. exact IH.
Qed.

Lemma dict_ok_perm {V} (d d' : pydict V) : d ≡ₚ d' -> dict_ok d -> dict_ok d'.
Proof. unfold dict_ok, dict_keys. by intros ->. Qed.

(** An accepted entry iterated in another order is accepted and gives the
    same value to every name. *)
Lemma entry_reordered_value e e' :
  entry_reordered e e' -> entry_ok e ->
  entry_ok e' /\ forall n, entry_value n e = entry_value n e'.
Proof.
  destruct e as [| | | | | |m]; try done.
  - destruct e'; try done.
  - destruct e' as [| | | | | |m']; try done.
    intros (mid & Hp & Hall) [Hnd Hdur].
    assert (Hmid : dict_ok mid) by by eapply dict_ok_perm.
    assert (Hget : forall n,
      match dict_get n m, dict_get n m' with
      | Some v, Some v' => member_reordered (n, v) (n, v')
      | None, None => True
      | _, _ => False
      end).
    { intros n. rewrite (dict_get_perm n m mid Hnd Hp).
      by apply dict_get_reordered. }
    pose proof (Hget "durations") as Hd.
    split; [split|].
    + unfold dict_ok. rewrite <- (Forall2_reordered_keys _ _ Hall). exact Hmid.
    + destruct (dict_get "durations" m) as [v|], (dict_get "durations" m') as [v'|];
        try done.
      destruct Hd as [_ [Hv|(_ & sub & sub' & Hv & Hv' & Hsub)]]; simpl in *.
      * by subst v'.
      * subst v v'. by eapply dict_ok_perm.
    + intros n. simpl. specialize (Hget n).
      case_mem (n ∈ top_names) Ht.
      * destruct (dict_get n m) as [v|], (dict_get n m') as [v'|]; try done.
        destruct Hget as [_ [Hv|(Hn & _)]]; simpl in *; [by subst|].
        by apply top_not_durations in Ht.
      * case_mem (n ∈ dur_names) Hdn; [|done].
        destruct (dict_get "durations" m) as [v|], (dict_get "durations" m') as [v'|];
          try done.
        destruct Hd as [_ [Hv|(_ & sub & sub' & Hv & Hv' & Hsub)]]; simpl in *.
        -- by subst v'.
        -- subst v v'. by apply dict_get_perm.
Qed.

Lemma document_value_reordered n mid r' :
  Forall2 entry_reordered mid r' -> Forall entry_ok mid ->
  Forall entry_ok r' /\ document_value n mid = document_value n r'.
Proof.
  induction 1 as [|e e' mid r' He Hall IH]; intros Hok; [done|].
  apply Forall_cons in Hok as [Hoke Hok].
  destruct (IH Hok) as [Hok' Hdv].
  destruct (entry_reordered_value _ _ He Hoke) as [Hoke' Hev].
  split; [by constructor|]. simpl. by rewrite Hdv, Hev.
Qed.

Lemma robot_reordered_value n r r' :
  robot_reordered r r' -> Forall entry_ok r -> consistent r ->
  Forall entry_ok r' /\ document_value n r = document_value n r'.
Proof.
  intros (mid & Hp & Hall) Hok Hc.
  assert (Hokmid : Forall entry_ok mid) by by rewrite <- Hp.
  destruct (document_value_reordered n _ _ Hall Hokmid) as [Hok' Hdv].
  split; [done|]. rewrite <- Hdv. by apply document_value_perm.
Qed.

(** The last entry that has a value for a name decides. *)
Lemma document_value_last n r1 e r2 v :
  entry_value n e = Some v ->
  Forall (fun e' => entry_value n e' = None) r2 ->
  document_value n (r1 ++ e :: r2) = Some v.
Proof.
  intros Hv Hr2.
  assert (H2 : document_value n r2 = None).
  { apply document_value_None. intros e' He'.
    by apply (proj1 (Forall_forall _ _) Hr2). }
  induction r1 as [|e1 r1 IH]; simpl.
  - by rewrite H2.
  - by rewrite IH.
Qed.

(** C9 (as stated, refuted): two robot entries that both carry [mode], with
    different values, iterated in the two possible orders, leave different
    states on the [mode] device: the order of the robot sequence decides. *)
Lemma C9_order_decides :
  robot_reordered [JObj [("mode", JStr "a")]; JObj [("mode", JStr "b")]]
                  [JObj [("mode", JStr "b")]; JObj [("mode", JStr "a")]] /\
  Forall entry_ok [JObj [("mode", JStr "a")]; JObj [("mode", JStr "b")]] /\
  device_at (_parse_shadow_response
               (response_of [JObj [("mode", JStr "a")]; JObj [("mode", JStr "b")]])
               (new_system "SN0001" "token-0" None)).2 "mode"
  = Some (mkDevice CyclonextAttributeSensor [("name", JStr "mode"); ("state", JStr "b")]) /\
  device_at (_parse_shadow_response
               (response_of [JObj [("mode", JStr "b")]; JObj [("mode", JStr "a")]])
               (new_system "SN0001" "token-0" None)).2 "mode"
  = Some (mkDevice CyclonextAttributeSensor [("name", JStr "mode"); ("state", JStr "a")]).
Proof.
  split; [|split; [|split]].
  - exists [JObj [("mode", JStr "b")]; JObj [("mode", JStr "a")]].
    split; [apply Permutation_swap|].
    constructor; [|constructor; [|constructor]].
    + exists [("mode", JStr "b")]. split; [done|].
      constructor; [|constructor]. split; [done|by left].
    + exists [("mode", JStr "a")]. split; [done|].
      constructor; [|constructor]. split; [done|by left].
  - apply (bool_decide_unpack _). vm_compute. exact I.
  - vm_compute. reflexivity.
  - vm_compute. reflexivity.
Qed.

(** C9 (amended): for every accepted document merged into a registry built
    by the parser,
    - iterating the members of the mappings in another order never changes
      the final registry contents;
    - iterating the robot sequence in another order does not change them
      either when the entries that give a value to the same name agree on
      it (as when every flattened name occurs once);
    - when a name occurs more than once the last occurrence in iteration
      order gives the state, silently. *)
Theorem C9_order_and_last_write st response data r :
  registry_ok st ->
  response_json response = Ok data ->
  robot_root data = Ok (JArr r) ->
  Forall entry_ok r ->
  exists st1,
    _parse_shadow_response response st = (Ok tt, st1) /\
    (forall response' data' r',
       response_json response' = Ok data' ->
       robot_root data' = Ok (JArr r') ->
       Forall2 entry_reordered r r' ->
       exists st2, _parse_shadow_response response' st = (Ok tt, st2) /\
                   forall k, device_at st1 k = device_at st2 k) /\
    (forall response' data' r',
       response_json response' = Ok data' ->
       robot_root data' = Ok (JArr r') ->
       robot_reordered r r' ->
       consistent r ->
       exists st2, _parse_shadow_response response' st = (Ok tt, st2) /\
                   forall k, device_at st1 k = device_at st2 k) /\
    (forall n r1 e r2 v,
       r = (r1 ++ e :: r2)%list ->
       entry_value n e = Some v ->
       Forall (fun e' => entry_value n e' = None) r2 ->
       device_at st1 n = Some (reconcile (device_at st n) n v)).
Proof.
  intros Hok Hjson Hroot Hall.
  destruct (parse_contents st response data r Hok Hjson Hroot Hall)
    as (st1 & Hrun & _ & Hat).
  exists st1. split; [done|]. split; [|split].
  - intros response' data' r' Hjson' Hroot' Hre.
    assert (Hall' : Forall entry_ok r').
    { by destruct (document_value_reordered "mode" _ _ Hre Hall). }
    destruct (parse_contents st response' data' r' Hok Hjson' Hroot' Hall')
      as (st2 & Hrun' & _ & Hat').
    exists st2. split; [done|]. intros k. rewrite Hat, Hat'.
    by destruct (document_value_reordered k _ _ Hre Hall) as [_ ->].
  - intros response' data' r' Hjson' Hroot' Hre Hc.
    assert (Hall' : Forall entry_ok r').
    { by destruct (robot_reordered_value "mode" _ _ Hre Hall Hc). }
    destruct (parse_contents st response' data' r' Hok Hjson' Hroot' Hall')
      as (st2 & Hrun' & _ & Hat').
    exists st2. split; [done|]. intros k. rewrite Hat, Hat'.
    by destruct (robot_reordered_value k _ _ Hre Hall Hc) as [_ ->].
  - intros n r1 e r2 v -> Hv Hr2. rewrite Hat.
    by rewrite (document_value_last n r1 e r2 v Hv Hr2).
Qed.

Lemma C9_order_and_last_write_witness :
  exists st1,
    _parse_shadow_response
      (response_of [JObj [("mode", JStr "a")]; JNull; JObj [("mode", JStr "b")]])
      seen_mode = (Ok tt, st1) /\
    device_at st1 "mode" =
      Some (mkDevice CyclonextAttributeSensor
              [("name", JStr "mode"); ("state", JStr "b"); ("label", JStr "Mode")]).
Proof.
  assert (Hok : Forall entry_ok
                  [JObj [("mode", JStr "a")]; JNull; JObj [("mode", JStr "b")]]).
  { apply (bool_decide_unpack _). vm_compute. exact I. }
  destruct (C9_order_and_last_write seen_mode
              (response_of [JObj [("mode", JStr "a")]; JNull; JObj [("mode", JStr "b")]])
              _ _ registry_ok_seen_mode eq_refl eq_refl Hok)
    as (st1 & Hrun & _ & _ & Hlast).
  exists st1. split; [exact Hrun|].
  exact (Hlast "mode" [JObj [("mode", JStr "a")]; JNull] (JObj [("mode", JStr "b")]) []
           (JStr "b") eq_refl eq_refl (Forall_nil_2 _)).
Defined.

(** ** The refresh protocol *)

Section ControllerFacts.
Variable w : World.

Lemma sends_log_send rq st : sends (log_event (EvSendRequest rq) st) = (sends st ++ [EvSendRequest rq])%list.
Proof. unfold sends. simpl. by rewrite List.filter_app. Qed.

Lemma sends_log_login st : sends (log_event EvLogin st) = sends st.
Proof. unfold sends. simpl. rewrite List.filter_app. simpl. by rewrite app_nil_r. Qed.

Lemma logins_log_send rq st : logins (log_event (EvSendRequest rq) st) = logins st.
Proof. unfold logins. simpl. rewrite List.filter_app. simpl. by rewrite app_nil_r. Qed.

Lemma logins_log_login st : logins (log_event EvLogin st) = (logins st ++ [EvLogin])%list.
Proof. unfold logins. simpl. by rewrite List.filter_app. Qed.

(** What [send_devices_request w] does, case by case. *)
Lemma send_devices_request_eq kw st :
  send_devices_request w kw st =
  let st1 := log_event (EvSendRequest (first_request kw st)) st in
  match transport w (length (sends st)) (first_request kw st) with
  | Ok r => (Ok r, st1)
  | Raise e =>
      if bool_decide (e = AqualinkServiceUnauthorizedException) then
        match authenticator w (length (logins st)) with
        | Ok tok =>
            (transport w (S (length (sends st))) (retry_request kw tok st),
             log_event (EvSendRequest (retry_request kw tok st))
               (set_id_token tok (log_event EvLogin st1)))
        | Raise e' => (Raise e', log_event EvLogin st1)
        end
      else (Raise e, st1)
  end.
Proof.
  unfold send_devices_request, bind, get, try_except,
    aqualink_send_request, first_request, retry_request, shadow_url. simpl.
  destruct (transport w _ _) as [r|e]; [done|].
  unfold isinstance_unauthorized. case_bool_decide; [|done].
  unfold aqualink_login. rewrite logins_log_send.
  destruct (authenticator w _) as [tok|e']; [|done].
  simpl. f_equal. f_equal.
  unfold sends. simpl. rewrite !List.filter_app. simpl.
  rewrite !length_app. simpl. lia.
Qed.

(** A request changes the trace and, after a login, the credential; the
    system object is not touched. *)
Lemma send_devices_request_frame kw st :
  serial (send_devices_request w kw st).2 = serial st /\
  last_refresh (send_devices_request w kw st).2 = last_refresh st /\
  online (send_devices_request w kw st).2 = online st /\
  devices (send_devices_request w kw st).2 = devices st /\
  heap (send_devices_request w kw st).2 = heap st /\
  clock_reads (send_devices_request w kw st).2 = clock_reads st.
Proof.
  rewrite send_devices_request_eq. cbv zeta.
  destruct (transport w _ _) as [r|e]; [done|].
  case_bool_decide; [|done].
  by destruct (authenticator w _).
Qed.

(** The calls one request makes: the request, then at most one login, then
    at most one more request. *)
Lemma send_devices_request_calls kw st :
  exists evs,
    trace (send_devices_request w kw st).2 = (trace st ++ evs)%list /\
    (evs = [EvSendRequest (first_request kw st)] \/
     evs = [EvSendRequest (first_request kw st); EvLogin] \/
     exists tok,
       authenticator w (length (logins st)) = Ok tok /\
       evs = [EvSendRequest (first_request kw st); EvLogin;
              EvSendRequest (retry_request kw tok st)]).
Proof.
  rewrite send_devices_request_eq. cbv zeta.
  destruct (transport w _ _) as [r|e]; [eexists; split; [done|by left]|].
  case_bool_decide; [|eexists; split; [done|by left]].
  destruct (authenticator w _) as [tok|e'] eqn:Hauth; simpl.
  - eexists. split; [by rewrite <- !app_assoc|].
    right. right. by exists tok.
  - eexists. split; [by rewrite <- !app_assoc|]. right. by left.
Qed.

Lemma send_devices_request_bounded kw st :
  (length (logins (send_devices_request w kw st).2) <= length (logins st) + 1)%nat /\
  (length (sends (send_devices_request w kw st).2) <= length (sends st) + 2)%nat.
Proof.
  destruct (send_devices_request_calls kw st) as (evs & Htr & Hevs).
  unfold logins, sends. rewrite Htr, !List.filter_app, !length_app.
  destruct Hevs as [->|[->|(tok & _ & ->)]]; simpl; lia.
Qed.

(** What [update] does, case by case. *)
Lemma update_eq st :
  update w st =
  if decide (time_time w (clock_reads st) - last_refresh st < MIN_SECS_TO_REFRESH w)
  then (Ok tt, tick st)
  else
    match send_reported_state_request w (tick st) with
    | (Raise e, st1) =>
        (Raise e, if isinstance_service w e then set_online None st1 else st1)
    | (Ok r, st1) =>
        match _parse_shadow_response r st1 with
        | (Raise e, st2) =>
            (Raise e, if bool_decide (e = AqualinkSystemOfflineException)
                      then set_online (Some false) st2 else st2)
        | (Ok _, st2) =>
            (Ok tt, set_last_refresh (time_time w (clock_reads st2))
                      (tick (set_online (Some true) st2)))
        end
    end.
Proof.
  unfold update, bind, read_clock, get, try_except_reraise, modify, ret. simpl.
  case_decide; [done|].
  destruct (send_reported_state_request w (tick st)) as [[r|e] st1];
    [|by destruct (isinstance_service w e)].
  destruct (_parse_shadow_response r st1) as [[[]|e] st2]; [done|].
  unfold isinstance_offline. by case_bool_decide.
Qed.

(** A parse leaves everything but the registry and the heap alone. *)
Lemma parse_frame response st :
  last_refresh (_parse_shadow_response response st).2 = last_refresh st /\
  online (_parse_shadow_response response st).2 = online st /\
  trace (_parse_shadow_response response st).2 = trace st /\
  id_token (_parse_shadow_response response st).2 = id_token st /\
  clock_reads (_parse_shadow_response response st).2 = clock_reads st.
Proof. by destruct (parse_extends response st). Qed.

(** No call re-authenticates more than once. *)
Lemma update_login_bounded st :
  (length (logins (update w st).2) <= length (logins st) + 1)%nat.
Proof.
  rewrite update_eq. case_decide; [unfold logins; simpl; lia|].
  pose proof (proj1 (send_devices_request_bounded NoKwargs (tick st))) as Hb.
  unfold send_reported_state_request.
  destruct (send_devices_request w NoKwargs (tick st)) as [[r|e] st1]; simpl in *.
  - pose proof (parse_frame r st1) as (_ & _ & Htr & _).
    destruct (_parse_shadow_response r st1) as [[[]|e] st2]; simpl in *.
    + unfold logins in *. simpl. by rewrite Htr.
    + unfold logins in *. case_bool_decide; simpl; by rewrite Htr.
  - by destruct (isinstance_service w e).
Qed.

(** The registry invariant holds in every state of a running system. *)
Lemma registry_ok_frame st st' :
  devices st' = devices st -> heap st' = heap st -> registry_ok st -> registry_ok st'.
Proof. unfold registry_ok. by intros -> ->. Qed.

Lemma registry_ok_parse response st :
  registry_ok st -> registry_ok (_parse_shadow_response response st).2.
Proof.
  intros Hok. rewrite parse_eq.
  destruct (shadow_entries response) as [flat|e] eqn:Hflat; [|done].
  destruct (shadow_entries_shaped _ _ Hflat) as (recs & -> & Hnd).
  destruct (merge_loop_contents recs st Hok Hnd) as (st' & -> & Hok' & _). done.
Qed.

Lemma registry_ok_send kw st :
  registry_ok st -> registry_ok (send_devices_request w kw st).2.
Proof.
  destruct (send_devices_request_frame kw st) as (_ & _ & _ & Hdev & Hheap & _).
  by apply registry_ok_frame.
Qed.

Lemma registry_ok_update st : registry_ok st -> registry_ok (update w st).2.
Proof.
  intros Hok. rewrite update_eq. case_decide; [done|].
  pose proof (registry_ok_send NoKwargs (tick st) Hok) as Hsend.
  unfold send_reported_state_request.
  destruct (send_devices_request w NoKwargs (tick st)) as [[r|e] st1]; simpl in *.
  - pose proof (registry_ok_parse r st1 Hsend) as Hparse.
    destruct (_parse_shadow_response r st1) as [[[]|e] st2]; simpl in *; [done|].
    by case_bool_decide.
  - by destruct (isinstance_service w e).
Qed.

Lemma reachable_registry_ok st : reachable w st -> registry_ok st.
Proof.
  induction 1 as [serial_ token online_|st _ IH|st desired _ IH].
  - apply registry_ok_new.
  - by apply registry_ok_update.
  - by apply registry_ok_send.
Qed.

(** In this parser the offline signal can only be what [response.json()]
    raised. *)
Lemma parse_offline_from_json response st st' :
  _parse_shadow_response response st = (Raise AqualinkSystemOfflineException, st') ->
  response_json response = Raise AqualinkSystemOfflineException.
Proof.
  intros H. apply parse_raise in H as [_ H].
  apply shadow_entries_raises in H as [H|[H|[H|H]]]; done.
Qed.

(** C3: a refresh called less than [MIN_SECS_TO_REFRESH] seconds after the
    last successful one returns at once: no call to the client is made (the
    trace is the same), and the online status, the last-refresh timestamp,
    the registry, the device objects and the credential are unchanged. *)
Theorem C3_throttled_refresh_changes_nothing st :
  time_time w (clock_reads st) - last_refresh st < MIN_SECS_TO_REFRESH w ->
  exists st',
    update w st = (Ok tt, st') /\
    trace st' = trace st /\
    online st' = online st /\
    last_refresh st' = last_refresh st /\
    devices st' = devices st /\
    heap st' = heap st /\
    id_token st' = id_token st /\
    serial st' = serial st.
Proof.
  intros Hearly. exists (tick st). rewrite update_eq.
  by rewrite decide_True.
Qed.

(** C4: when the fetch of a refresh that is not throttled ends in an
    exception of the service-error class, [update] raises that exception,
    the online status is unknown, the last-refresh timestamp, the registry
    and the device objects are as before, and the call has made at most two
    requests and one login.  Two unauthorized answers in a row are such a
    case: the second one is raised after exactly one login and one retry. *)
Theorem C4_service_error_sets_unknown st e st1 :
  ~ time_time w (clock_reads st) - last_refresh st < MIN_SECS_TO_REFRESH w ->
  send_reported_state_request w (tick st) = (Raise e, st1) ->
  isinstance_service w e = true ->
  exists st',
    update w st = (Raise e, st') /\
    online st' = None /\
    last_refresh st' = last_refresh st /\
    devices st' = devices st /\
    heap st' = heap st /\
    (length (sends st') <= length (sends st) + 2)%nat /\
    (length (logins st') <= length (logins st) + 1)%nat /\
    (forall tok,
       transport w (length (sends st)) (first_request NoKwargs st)
         = Raise AqualinkServiceUnauthorizedException ->
       authenticator w (length (logins st)) = Ok tok ->
       transport w (S (length (sends st))) (retry_request NoKwargs tok st)
         = Raise AqualinkServiceUnauthorizedException ->
       e = AqualinkServiceUnauthorizedException /\
       trace st' = (trace st ++ [EvSendRequest (first_request NoKwargs st); EvLogin;
                                 EvSendRequest (retry_request NoKwargs tok st)])%list).
Proof.
  intros Hlate Hfetch Hclass.
  exists (set_online None st1). rewrite update_eq, decide_False by done.
  rewrite Hfetch, Hclass. split; [done|]. split; [done|].
  pose proof (send_devices_request_frame NoKwargs (tick st)) as Hframe.
  pose proof (send_devices_request_bounded NoKwargs (tick st)) as Hbound.
  pose proof (send_devices_request_eq NoKwargs (tick st)) as Heq.
  unfold send_reported_state_request in Hfetch. rewrite Hfetch in *.
  simpl in Hframe, Hbound. destruct Hframe as (_ & Hlast & _ & Hdev & Hheap & _).
  split; [exact Hlast|]. split; [exact Hdev|]. split; [exact Hheap|].
  split; [apply Hbound|]. split; [apply Hbound|].
  intros tok H1 Hauth H2. revert Heq. cbv zeta.
  change (first_request NoKwargs (tick st)) with (first_request NoKwargs st).
  change (sends (tick st)) with (sends st).
  change (logins (tick st)) with (logins st).
  rewrite H1. simpl. rewrite Hauth.
  change (retry_request NoKwargs tok (tick st)) with (retry_request NoKwargs tok st).
  rewrite H2.
  intros [= -> ->]. split; [done|]. simpl. by rewrite <- !app_assoc.
Qed.

(** C5: when the fetch of a refresh that is not throttled succeeds and the
    parse of the response raises [AqualinkSystemOfflineException], [update]
    raises it, the online status is false, and the last-refresh timestamp,
    the registry and the device objects are those of before the call. *)
Theorem C5_offline_sets_false st r st1 st2 :
  ~ time_time w (clock_reads st) - last_refresh st < MIN_SECS_TO_REFRESH w ->
  send_reported_state_request w (tick st) = (Ok r, st1) ->
  _parse_shadow_response r st1 = (Raise AqualinkSystemOfflineException, st2) ->
  exists st',
    update w st = (Raise AqualinkSystemOfflineException, st') /\
    online st' = Some false /\
    last_refresh st' = last_refresh st /\
    devices st' = devices st /\
    heap st' = heap st.
Proof.
  intros Hlate Hfetch Hparse.
  exists (set_online (Some false) st2).
  rewrite update_eq, decide_False by done. rewrite Hfetch, Hparse.
  split; [done|]. split; [done|].
  destruct (parse_raise _ _ _ _ Hparse) as [-> _].
  pose proof (send_devices_request_frame NoKwargs (tick st)) as Hframe.
  unfold send_reported_state_request in Hfetch. rewrite Hfetch in Hframe.
  simpl in Hframe. by destruct Hframe as (_ & ? & _ & ? & ? & _).
Qed.

(** A [durations] member that is not a mapping makes the flattening loop
    raise, also after entries that were flattened without error. *)
Lemma attribute_loop_malformed members v acc :
  dict_get "durations" members = Some v -> not_mapping v ->
  for_each attribute_body members acc = Raise AttributeError.
Proof.
  revert acc. induction members as [|[k x] members IH]; intros acc; simpl; [done|].
  destruct (decide ("durations" = k)) as [<-|Hne].
  - intros [= ->] Hv. by destruct v.
  - intros Hget Hv. rewrite (decide_False (P := k = "durations")) by done.
    by apply IH.
Qed.

Lemma flatten_robot_malformed robot members rest v :
  Forall entry_ok robot ->
  dict_get "durations" members = Some v -> not_mapping v ->
  flatten_robot (JArr (robot ++ JObj members :: rest)) = Raise AttributeError.
Proof.
  intros Hall Hget Hv. unfold flatten_robot. simpl. rewrite for_each_app.
  destruct (robot_loop robot [] Hall) as (acc & -> & _). simpl.
  by rewrite (attribute_loop_malformed _ _ _ Hget Hv).
Qed.

(** C10: when the fetch of a refresh that is not throttled succeeds and the
    parse of the response raises anything but
    [AqualinkSystemOfflineException], [update] raises that exception and
    the online status, the last-refresh timestamp, the registry and the
    device objects are exactly those of before the call: the exception came
    out of the decoding, the path lookup or the flattening, before the merge
    loop started, and the merge loop itself never raises.  A body that does
    not decode, a document without the path to the robot sequence, and a
    [durations] member that is not a mapping are such failures. *)
Theorem C10_parse_failure_is_atomic st r st1 st2 e :
  ~ time_time w (clock_reads st) - last_refresh st < MIN_SECS_TO_REFRESH w ->
  send_reported_state_request w (tick st) = (Ok r, st1) ->
  _parse_shadow_response r st1 = (Raise e, st2) ->
  e <> AqualinkSystemOfflineException ->
  (exists st',
     update w st = (Raise e, st') /\
     online st' = online st /\
     last_refresh st' = last_refresh st /\
     devices st' = devices st /\
     heap st' = heap st) /\
  st2 = st1 /\
  shadow_entries r = Raise e /\
  (forall r' s, response_json r' = Raise JSONDecodeError ->
     _parse_shadow_response r' s = (Raise JSONDecodeError, s)) /\
  (forall r' s data e', response_json r' = Ok data -> robot_root data = Raise e' ->
     e' <> AqualinkSystemOfflineException /\
     _parse_shadow_response r' s = (Raise e', s)) /\
  (forall r' s data robot members rest v,
     response_json r' = Ok data ->
     robot_root data = Ok (JArr (robot ++ JObj members :: rest)) ->
     Forall entry_ok robot ->
     dict_get "durations" members = Some v -> not_mapping v ->
     _parse_shadow_response r' s = (Raise AttributeError, s)).
Proof.
  intros Hlate Hfetch Hparse Hne.
  destruct (parse_raise _ _ _ _ Hparse) as [-> Hent].
  split; [|split; [done|split; [done|split; [|split]]]].
  - exists st1. rewrite update_eq, decide_False by done. rewrite Hfetch, Hparse.
    rewrite bool_decide_eq_false_2 by done. split; [done|].
    pose proof (send_devices_request_frame NoKwargs (tick st)) as Hframe.
    unfold send_reported_state_request in Hfetch. rewrite Hfetch in Hframe.
    simpl in Hframe. by destruct Hframe as (_ & ? & ? & ? & ? & _).
  - intros r' s Hjson. rewrite parse_eq. unfold shadow_entries. by rewrite Hjson.
  - intros r' s data e' Hjson Hroot.
    split; [by eapply document_error_not_offline, robot_root_raises|].
    rewrite parse_eq. unfold shadow_entries.
    rewrite Hjson. simpl. by rewrite Hroot.
  - intros r' s data robot members rest v Hjson Hroot Hall Hget Hv.
    rewrite parse_eq. unfold shadow_entries. rewrite Hjson. simpl. rewrite Hroot.
    simpl. by rewrite (flatten_robot_malformed _ _ _ _ Hall Hget Hv).
Qed.

(** C2 (amended): whenever the first request of [send_devices_request]
    (used by the refresh and by a desired-state submission alike) is
    answered unauthorized, the client is asked to log in exactly once; if
    the login succeeds the request is sent once more, with the new
    credential in its header, and its outcome is the outcome of the call;
    if the login fails its exception is raised and nothing is sent again.
    No call logs in more than once.  A refresh that is not throttled, whose
    first request is answered unauthorized, whose login succeeds, whose
    retried request succeeds and whose response flattens without error,
    completes with the online status true and the last-refresh timestamp
    set, after exactly one login and two requests. *)
Theorem C2_one_reauthentication_one_retry kw st :
  (transport w (length (sends st)) (first_request kw st)
     = Raise AqualinkServiceUnauthorizedException ->
   (forall tok, authenticator w (length (logins st)) = Ok tok ->
      exists st',
        send_devices_request w kw st =
          (transport w (S (length (sends st))) (retry_request kw tok st), st') /\
        id_token st' = tok /\
        trace st' = (trace st ++ [EvSendRequest (first_request kw st); EvLogin;
                                  EvSendRequest (retry_request kw tok st)])%list) /\
   (forall e, authenticator w (length (logins st)) = Raise e ->
      exists st',
        send_devices_request w kw st = (Raise e, st') /\
        trace st' = (trace st ++ [EvSendRequest (first_request kw st); EvLogin])%list)) /\
  (length (logins (send_devices_request w kw st).2) <= length (logins st) + 1)%nat /\
  (length (logins (update w st).2) <= length (logins st) + 1)%nat /\
  send_reported_state_request w = send_devices_request w NoKwargs /\
  (forall desired,
     send_desired_state_request w desired =
     send_devices_request w (PostJson (JObj [("state", JObj [("desired", desired)])]))) /\
  (forall tok r flat,
     ~ time_time w (clock_reads st) - last_refresh st < MIN_SECS_TO_REFRESH w ->
     transport w (length (sends st)) (first_request NoKwargs st)
       = Raise AqualinkServiceUnauthorizedException ->
     authenticator w (length (logins st)) = Ok tok ->
     transport w (S (length (sends st))) (retry_request NoKwargs tok st) = Ok r ->
     shadow_entries r = Ok flat ->
     exists st',
       update w st = (Ok tt, st') /\
       online st' = Some true /\
       last_refresh st' = time_time w (S (clock_reads st)) /\
       trace st' = (trace st ++ [EvSendRequest (first_request NoKwargs st); EvLogin;
                                 EvSendRequest (retry_request NoKwargs tok st)])%list).
Proof.
  split; [|split; [|split; [|split; [|split]]]].
  - intros H1. split.
    + intros tok Hauth. eexists. rewrite send_devices_request_eq. cbv zeta.
      rewrite H1. simpl. rewrite Hauth. split; [done|]. split; [done|].
      simpl. by rewrite <- !app_assoc.
    + intros e Hauth. eexists. rewrite send_devices_request_eq. cbv zeta.
      rewrite H1. simpl. rewrite Hauth. split; [done|].
      simpl. by rewrite <- !app_assoc.
  - apply send_devices_request_bounded.
  - apply update_login_bounded.
  - done.
  - done.
  - intros tok r flat Hlate H1 Hauth H2 Hflat.
    rewrite update_eq, decide_False by done.
    unfold send_reported_state_request. rewrite send_devices_request_eq. cbv zeta.
    change (first_request NoKwargs (tick st)) with (first_request NoKwargs st).
    change (sends (tick st)) with (sends st).
    change (logins (tick st)) with (logins st).
    rewrite H1. simpl. rewrite Hauth.
    change (retry_request NoKwargs tok (tick st)) with (retry_request NoKwargs tok st).
    rewrite H2.
    destruct (shadow_entries_shaped _ _ Hflat) as (recs & -> & _).
    rewrite parse_eq, Hflat.
    match goal with |- context [for_each_M merge_body (shape recs) ?s] =>
      destruct (merge_loop_total recs s) as (st2 & Hrun);
      pose proof (merge_loop_extends (shape recs) s) as Hext;
      rewrite Hrun in *
    end.
    eexists. split; [done|]. simpl in Hext. destruct Hext. simpl in *.
    split; [done|]. split; [by rewrite ext_clock0|].
    rewrite ext_trace0. by rewrite <- !app_assoc.
Qed.

End ControllerFacts.

(** ** The refresh protocol on concrete worlds *)

Lemma C3_throttled_refresh_changes_nothing_witness :
  exists st',
    update world_too_early seen_mode = (Ok tt, st') /\
    trace st' = [] /\
    online st' = Some true /\
    last_refresh st' = 100 /\
    devices st' = devices seen_mode /\
    heap st' = heap seen_mode.
Proof.
  destruct (C3_throttled_refresh_changes_nothing world_too_early seen_mode)
    as (st' & Hrun & Htr & Hon & Hlast & Hdev & Hheap & _).
  - reflexivity.
  - exists st'. by repeat split.
Defined.

Lemma C4_service_error_sets_unknown_witness :
  exists st',
    update world_rejected seen_mode = (Raise AqualinkServiceUnauthorizedException, st') /\
    online st' = None /\
    last_refresh st' = 100 /\
    length (sends st') = 2%nat /\
    length (logins st') = 1%nat.
Proof.
  destruct (C4_service_error_sets_unknown world_rejected seen_mode
              AqualinkServiceUnauthorizedException
              (send_reported_state_request world_rejected (tick seen_mode)).2)
    as (st' & Hrun & Honline & Hlast & _ & _ & _ & _ & Htwice).
  - vm_compute. intros H. discriminate H.
  - reflexivity.
  - reflexivity.
  - exists st'. split; [exact Hrun|]. split; [exact Honline|]. split; [exact Hlast|].
    destruct (Htwice "token-1" eq_refl eq_refl eq_refl) as [_ Htr].
    unfold sends, logins. rewrite Htr. split; reflexivity.
Defined.

Lemma C5_offline_sets_false_witness :
  exists st',
    update world_offline seen_mode = (Raise AqualinkSystemOfflineException, st') /\
    online st' = Some false /\
    last_refresh st' = 100 /\
    devices st' = devices seen_mode /\
    heap st' = heap seen_mode.
Proof.
  destruct (C5_offline_sets_false world_offline seen_mode
              (mkResponse (Raise AqualinkSystemOfflineException))
              (send_reported_state_request world_offline (tick seen_mode)).2
              (send_reported_state_request world_offline (tick seen_mode)).2)
    as (st' & Hrun & Hrest).
  - vm_compute. intros H. discriminate H.
  - reflexivity.
  - reflexivity.
  - exists st'. split; [exact Hrun | exact Hrest].
Defined.

Lemma C10_parse_failure_is_atomic_witness :
  exists st',
    update world_malformed seen_mode = (Raise AttributeError, st') /\
    online st' = Some true /\
    last_refresh st' = 100 /\
    devices st' = devices seen_mode /\
    heap st' = heap seen_mode.
Proof.
  destruct (C10_parse_failure_is_atomic world_malformed seen_mode
              (response_of malformed_robot)
              (send_reported_state_request world_malformed (tick seen_mode)).2
              (send_reported_state_request world_malformed (tick seen_mode)).2
              AttributeError)
    as (Hupdate & _).
  - vm_compute. intros H. discriminate H.
  - reflexivity.
  - reflexivity.
  - discriminate.
  - exact Hupdate.
Defined.

(** C2 (as stated, refuted), on two worlds whose first answer is
    unauthorized.  When the login fails too, one request has been sent and
    none is sent again.  When the login succeeds and the retried request is
    answered, but with a document that has no [state] member, the refresh
    raises and the online status is not set to true. *)
Lemma C2_no_retry_or_no_success :
  (transport world_login_fails 0 (first_request NoKwargs (new_system "SN0001" "token-0" None))
     = Raise AqualinkServiceUnauthorizedException /\
   send_devices_request world_login_fails NoKwargs (new_system "SN0001" "token-0" None)
     = (Raise AqualinkServiceUnauthorizedException,
        log_event EvLogin
          (log_event (EvSendRequest (first_request NoKwargs (new_system "SN0001" "token-0" None)))
             (new_system "SN0001" "token-0" None)))) /\
  (transport (world_expired (mkResponse (Ok JNull))) 0
             (first_request NoKwargs (new_system "SN0001" "token-0" None))
     = Raise AqualinkServiceUnauthorizedException /\
   transport (world_expired (mkResponse (Ok JNull))) 1
             (retry_request NoKwargs "token-1" (new_system "SN0001" "token-0" None))
     = Ok (mkResponse (Ok JNull)) /\
   (update (world_expired (mkResponse (Ok JNull)))
           (new_system "SN0001" "token-0" None)).1 = Raise TypeError /\
   online (update (world_expired (mkResponse (Ok JNull)))
                  (new_system "SN0001" "token-0" None)).2 = None).
Proof. repeat split. Qed.

Lemma C2_one_reauthentication_one_retry_witness :
  exists st',
    update (world_expired (response_of [example_entry])) seen_mode = (Ok tt, st') /\
    online st' = Some true /\
    last_refresh st' = 1000 /\
    length (logins st') = 1%nat /\
    sends st' = [EvSendRequest (mkRequest (shadow_url seen_mode) "token-0" NoKwargs);
                 EvSendRequest (mkRequest (shadow_url seen_mode) "token-1" NoKwargs)].
Proof.
  destruct (C2_one_reauthentication_one_retry
              (world_expired (response_of [example_entry])) NoKwargs seen_mode)
    as (_ & _ & _ & _ & _ & Hrefresh).
  destruct (Hrefresh "token-1" (response_of [example_entry])
              [("mode", make_attrs "mode" (JStr "filter"));
               ("cycle", make_attrs "cycle" (JStr "A"));
               ("cycleStartTime", make_attrs "cycleStartTime" (JNum 123));
               ("quickTim", make_attrs "quickTim" (JNum 5));
               ("deepTim", make_attrs "deepTim" (JNum 10));
               ("stepper", make_attrs "stepper" (JNum 2))])
    as (st' & Hrun & Hon & Hlast & Htr).
  - vm_compute. intros H. discriminate H.
  - reflexivity.
  - reflexivity.
  - reflexivity.
  - reflexivity.
  - exists st'. split; [exact Hrun|]. split; [exact Hon|]. split; [exact Hlast|].
    unfold logins, sends. rewrite Htr. split; reflexivity.
Defined.

(** * Further properties of the two modules *)

(** ** The robot sequence and its entries *)

(** X1: what [enumerate(root)] and the first [value.items()] do with a robot
    value that is not a list: an empty mapping or an empty string is
    iterated like an empty list and the parse completes without touching
    anything; a mapping or string that is not empty yields strings, on
    which [items] raises [AttributeError]; null, a boolean or a number is
    not iterable and raises [TypeError].  In every case the state is left
    as it was. *)
Theorem X1_robot_not_a_list response data root st :
  response_json response = Ok data ->
  robot_root data = Ok root ->
  match root with
  | JArr [] | JObj [] | JStr EmptyString =>
      _parse_shadow_response response st = (Ok tt, st)
  | JObj (_ :: _) | JStr (String _ _) =>
      _parse_shadow_response response st = (Raise AttributeError, st)
  | JNull | JBool _ | JNum _ | JFloat _ =>
      _parse_shadow_response response st = (Raise TypeError, st)
  | JArr (_ :: _) => True
  end.
Proof.
  intros Hjson Hroot. rewrite parse_eq. unfold shadow_entries.
  rewrite Hjson. simpl. rewrite Hroot. simpl.
  destruct root as [| | | |s|items|members]; try done.
  - by destruct s.
  - by destruct items.
  - by destruct members as [|[k v] members].
Qed.

Lemma X1_robot_not_a_list_witness :
  _parse_shadow_response
    (mkResponse (Ok (JObj [("state", JObj [("reported", JObj [("equipment",
                   JObj [("robot", JObj [("mode", JStr "filter")])])])])])))
    seen_mode
  = (Raise AttributeError, seen_mode).
Proof.
  exact (X1_robot_not_a_list
           (mkResponse (Ok (JObj [("state", JObj [("reported", JObj [("equipment",
                   JObj [("robot", JObj [("mode", JStr "filter")])])])])])))
           _ (JObj [("mode", JStr "filter")]) seen_mode eq_refl eq_refl).
Defined.

(** X2: a robot entry that is neither null nor a mapping makes the parse
    raise [AttributeError], also after entries that were flattened without
    error, and nothing of the state has changed. *)
Theorem X2_entry_not_a_mapping response data robot e rest st :
  response_json response = Ok data ->
  robot_root data = Ok (JArr (robot ++ e :: rest)) ->
  Forall entry_ok robot ->
  ~ null_or_mapping e ->
  _parse_shadow_response response st = (Raise AttributeError, st).
Proof.
  intros Hjson Hroot Hall He. rewrite parse_eq. unfold shadow_entries.
  rewrite Hjson. simpl. rewrite Hroot. simpl.
  unfold flatten_robot. simpl. rewrite for_each_app.
  destruct (robot_loop robot [] Hall) as (acc & -> & _). simpl.
  destruct e; simpl in *; try done; by destruct He.
Qed.

Lemma X2_entry_not_a_mapping_witness :
  _parse_shadow_response (response_of [example_entry; JNum 7; JNull]) seen_mode
  = (Raise AttributeError, seen_mode).
Proof.
  apply (X2_entry_not_a_mapping _ (shadow_document [example_entry; JNum 7; JNull])
           [example_entry] (JNum 7) [JNull]).
  - reflexivity.
  - reflexivity.
  - apply (bool_decide_unpack _). vm_compute. exact I.
  - simpl. intros H. exact H.
Defined.

(** X3: the lookup [data["state"]["reported"]["equipment"]["robot"]]
    succeeds exactly when the four keys are there, each but the last
    holding a mapping; otherwise it raises [KeyError] (a mapping without
    the key) or [TypeError] (not a mapping), never anything else. *)
Theorem X3_robot_root_path data :
  (forall root,
     robot_root data = Ok root <->
     exists m1 m2 m3 m4,
       data = JObj m1 /\
       dict_get "state" m1 = Some (JObj m2) /\
       dict_get "reported" m2 = Some (JObj m3) /\
       dict_get "equipment" m3 = Some (JObj m4) /\
       dict_get "robot" m4 = Some root) /\
  (forall e, robot_root data = Raise e -> e = KeyError \/ e = TypeError) /\
  (forall m1, data = JObj m1 -> dict_get "state" m1 = None ->
     robot_root data = Raise KeyError) /\
  (not_mapping data -> robot_root data = Raise TypeError).
Proof.
  assert (Hget : forall d key v,
            py_getitem d key = Ok v <-> exists m, d = JObj m /\ dict_get key m = Some v).
  { intros d key v. destruct d; simpl; try (split; [done|by intros (m & ? & _)]).
    destruct (dict_get key members) as [x|] eqn:Hx.
    - split; [intros [= ->]; eauto|]. intros (m & [= <-] & Hm). congruence.
    - split; [done|]. intros (m & [= <-] & Hm). congruence. }
  assert (Herr : forall d key e, py_getitem d key = Raise e -> e = KeyError \/ e = TypeError).
  { intros d key e. destruct d; simpl; try (intros [= <-]; by right).
    destruct (dict_get key members); [done|]. intros [= <-]. by left. }
  split; [|split; [|split]].
  - intros root. unfold robot_root. split.
    + destruct (py_getitem data "state") as [a|] eqn:Ha; simpl; [|done].
      destruct (py_getitem a "reported") as [b|] eqn:Hb; simpl; [|done].
      destruct (py_getitem b "equipment") as [c|] eqn:Hc; simpl; [|done].
      intros Hr.
      apply Hget in Ha as (m1 & -> & H1). apply Hget in Hb as (m2 & -> & H2).
      apply Hget in Hc as (m3 & -> & H3). apply Hget in Hr as (m4 & -> & H4).
      by exists m1, m2, m3, m4.
    + intros (m1 & m2 & m3 & m4 & -> & H1 & H2 & H3 & H4). simpl.
      rewrite H1. simpl. rewrite H2. simpl. rewrite H3. simpl. by rewrite H4.
  - intros e. unfold robot_root.
    destruct (py_getitem data "state") as [a|] eqn:Ha; simpl;
      [|intros [= <-]; by eapply Herr].
    destruct (py_getitem a "reported") as [b|] eqn:Hb; simpl;
      [|intros [= <-]; by eapply Herr].
    destruct (py_getitem b "equipment") as [c|] eqn:Hc; simpl;
      [|intros [= <-]; by eapply Herr].
    apply Herr.
  - intros m1 -> H1. unfold robot_root. simpl. by rewrite H1.
  - intros Hd. by destruct data.
Qed.

Lemma X3_robot_root_path_witness :
  robot_root (JObj [("status", JStr "ok")]) = Raise KeyError /\
  robot_root (JArr [JNum 1]) = Raise TypeError.
Proof.
  destruct (X3_robot_root_path (JObj [("status", JStr "ok")])) as (_ & _ & Hkey & _).
  destruct (X3_robot_root_path (JArr [JNum 1])) as (_ & _ & _ & Hnot).
  split; [exact (Hkey _ eq_refl eq_refl) | exact (Hnot I)].
Defined.

(** ** The transient dict and the registry, for any document *)

Lemma keys_recognized_setitem {V} k (v : V) acc :
  k ∈ recognized_names -> keys_recognized acc -> keys_recognized (dict_setitem k v acc).
Proof.
  intros Hk Hacc k' Hk'. apply dict_keys_setitem in Hk' as [->|Hk']; [done|by apply Hacc].
Qed.

Lemma durations_body_recognized kv acc acc' :
  keys_recognized acc -> durations_body kv acc = Ok acc' -> keys_recognized acc'.
Proof.
  destruct kv as [k v]. unfold durations_body. intros Hacc.
  case_bool_decide as Hk; intros [= <-]; [|done].
  apply keys_recognized_setitem; [|done].
  unfold recognized_names. apply elem_of_app. by right.
Qed.

Lemma attribute_body_recognized kv acc acc' :
  keys_recognized acc -> attribute_body kv acc = Ok acc' -> keys_recognized acc'.
Proof.
  destruct kv as [k v]. unfold attribute_body. intros Hacc.
  assert (H1 : keys_recognized (if bool_decide (k ∈ top_names)
                                then dict_setitem k (make_attrs k v) acc else acc)).
  { case_bool_decide as Hk; [|done]. apply keys_recognized_setitem; [|done].
    unfold recognized_names. apply elem_of_app. by left. }
  destruct (decide (k = "durations")); [|by intros [= <-]].
  destruct v; simpl; try done. intros Hrun.
  eapply (for_each_invariant keys_recognized);
    [apply durations_body_recognized|exact H1|exact Hrun].
Qed.

Lemma robot_body_recognized e acc acc' :
  keys_recognized acc -> robot_body e acc = Ok acc' -> keys_recognized acc'.
Proof.
  intros Hacc. destruct e; simpl; try done.
  - by intros [= <-].
  - intros Hrun.
    eapply (for_each_invariant keys_recognized);
      [apply attribute_body_recognized|exact Hacc|exact Hrun].
Qed.

Lemma shadow_entries_recognized response flat :
  shadow_entries response = Ok flat -> keys_recognized flat.
Proof.
  unfold shadow_entries, flatten_robot.
  destruct (response_json response) as [data|]; simpl; [|done].
  destruct (robot_root data) as [root|]; simpl; [|done].
  destruct (py_iter root) as [entries|]; simpl; [|done].
  apply (for_each_invariant keys_recognized); [apply robot_body_recognized|].
  intros k Hk. by apply elem_of_nil in Hk.
Qed.

(** X4: whatever the response, when the flattening completes the transient
    dict has unique keys, all among the six recognized names (so at most
    six entries), and holds [{"name": k, "state": s}] under each key [k]. *)
Theorem X4_transient_dict_form response flat :
  shadow_entries response = Ok flat ->
  NoDup (dict_keys flat) /\
  (length flat <= 6)%nat /\
  forall k attrs, dict_get k flat = Some attrs ->
    k ∈ recognized_names /\
    exists s, attrs = [("name", JStr k); ("state", s)].
Proof.
  intros Hflat.
  pose proof (shadow_entries_recognized _ _ Hflat) as Hrec.
  destruct (shadow_entries_shaped _ _ Hflat) as (recs & -> & Hnd).
  assert (Hkeys : dict_keys (shape recs) = dict_keys recs).
  { unfold dict_keys, shape. rewrite <- list_fmap_compose. done. }
  split; [by rewrite Hkeys|]. split.
  - assert (Hlen : (length (dict_keys (shape recs)) <= length recognized_names)%nat).
    { apply NoDup_incl_length; [rewrite Hkeys; by apply NoDup_ListNoDup|].
      intros k Hk. apply list_elem_of_In. apply Hrec. by apply list_elem_of_In. }
    unfold dict_keys in Hlen. rewrite length_fmap in Hlen. exact Hlen.
  - intros k attrs Hget. split.
    + apply Hrec. apply dict_get_Some_elem in Hget.
      apply list_elem_of_fmap. by exists (k, attrs).
    + rewrite dict_get_shape in Hget.
      destruct (dict_get k recs) as [s|]; [|done]. injection Hget as <-. by exists s.
Qed.

Lemma X4_transient_dict_form_witness :
  exists flat,
    shadow_entries (response_of [example_entry; example_entry]) = Ok flat /\
    (length flat <= 6)%nat.
Proof.
  eexists. split; [reflexivity|].
  exact (proj1 (proj2 (X4_transient_dict_form
                         (response_of [example_entry; example_entry]) _ eq_refl))).
Defined.

(** ** Invariants of a running system *)

Lemma class_of_name_recognized k :
  k ∈ recognized_names -> class_of_name k = CyclonextAttributeSensor.
Proof.
  unfold recognized_names, top_names, dur_names.
  rewrite elem_of_app, !elem_of_cons, !elem_of_nil.
  intros [[->|[->|[->|[]]]]|[->|[->|[->|[]]]]]; reflexivity.
Qed.

Lemma registry_sane_ok st : registry_sane st -> registry_ok st.
Proof.
  intros Hs k l Hk. destruct (Hs k l Hk) as (_ & d & Hd & _ & Hn & _). by exists d.
Qed.

Lemma registry_sane_merge_state k s st :
  k ∈ recognized_names -> registry_sane st -> registry_sane (merge_state k s st).
Proof.
  intros Hrec Hs k' l' Hk'.
  pose proof (registry_sane_ok _ Hs) as Hok.
  destruct (merge_state_ok k s st Hok k' l' Hk') as (d & Hd & Hn).
  pose proof (device_at_Some _ _ _ _ Hk' Hd) as Hat.
  destruct (decide (k' = k)) as [->|Hne].
  - split; [done|]. exists d. split; [done|].
    rewrite merge_state_at in Hat by done. injection Hat as <-.
    split; [|split; [done|]].
    + unfold reconcile, device_at.
      destruct (devices st !! k) as [l|] eqn:Hk; simpl;
        [|by apply class_of_name_recognized].
      destruct (Hs _ _ Hk) as (_ & d0 & Hd0 & Hc0 & _). by rewrite Hd0.
    + unfold reconcile. destruct (device_at st k); simpl.
      * rewrite dict_get_setitem_eq. by eexists.
      * by eexists.
  - rewrite merge_state_other in Hat by done.
    rewrite merge_state_devices in Hk' by done.
    destruct (Hs _ _ Hk') as (Hin & d0 & Hd0 & Hc0 & Hn0 & Hs0).
    split; [done|]. exists d. split; [done|].
    rewrite (device_at_Some _ _ _ _ Hk' Hd0) in Hat. by injection Hat as <-.
Qed.

Lemma registry_sane_merge_loop recs st st' :
  keys_recognized recs -> registry_sane st ->
  for_each_M merge_body (shape recs) st = (Ok tt, st') -> registry_sane st'.
Proof.
  revert st. induction recs as [|[k s] recs IH]; intros st Hrec Hs.
  - by intros [= <-].
  - unfold shape. cbn [fmap list_fmap fst snd].
    rewrite for_each_M_cons, merge_body_shape. apply IH.
    + intros k' Hk'. apply Hrec. by right.
    + apply registry_sane_merge_state; [|done]. apply Hrec. by left.
Qed.

Lemma registry_sane_parse response st :
  registry_sane st -> registry_sane (_parse_shadow_response response st).2.
Proof.
  intros Hs. rewrite parse_eq.
  destruct (shadow_entries response) as [flat|e] eqn:Hflat; [|done].
  pose proof (shadow_entries_recognized _ _ Hflat) as Hrec.
  destruct (shadow_entries_shaped _ _ Hflat) as (recs & -> & _).
  destruct (merge_loop_total recs st) as (st' & Hrun). rewrite Hrun. simpl.
  eapply registry_sane_merge_loop; [|done|done].
  intros k Hk. apply Hrec. unfold dict_keys, shape.
  by rewrite <- list_fmap_compose.
Qed.

Lemma registry_sane_frame st st' :
  devices st' = devices st -> heap st' = heap st -> registry_sane st -> registry_sane st'.
Proof. unfold registry_sane. by intros -> ->. Qed.

Lemma registry_sane_send w kw st :
  registry_sane st -> registry_sane (send_devices_request w kw st).2.
Proof.
  destruct (send_devices_request_frame w kw st) as (_ & _ & _ & Hdev & Hheap & _).
  by apply registry_sane_frame.
Qed.

Lemma registry_sane_update w st : registry_sane st -> registry_sane (update w st).2.
Proof.
  intros Hs. rewrite update_eq. case_decide; [done|].
  pose proof (registry_sane_send w NoKwargs (tick st) Hs) as Hsend.
  unfold send_reported_state_request.
  destruct (send_devices_request w NoKwargs (tick st)) as [[r|e] st1]; simpl in *.
  - pose proof (registry_sane_parse r st1 Hsend) as Hparse.
    destruct (_parse_shadow_response r st1) as [[[]|e] st2]; simpl in *; [done|].
    by case_bool_decide.
  - by destruct (isinstance_service w e).
Qed.

Lemma reachable_registry_sane w st : reachable w st -> registry_sane st.
Proof.
  induction 1 as [serial_ token online_|st _ IH|st desired _ IH].
  - intros k l H. simpl in H. by rewrite lookup_empty in H.
  - by apply registry_sane_update.
  - by apply registry_sane_send.
Qed.

(** X5: in every state a system goes through (constructed, then refreshed
    and sent desired states in any number and order, whatever the
    outcomes), the registry has at most six devices, its keys are among the
    six recognized names, and each key denotes a live object of class
    [CyclonextAttributeSensor] whose [name] attribute is the key and which
    has a [state] attribute.  The parser never builds a [CyclonextProg] or a
    [CyclonextSensor]. *)
Theorem X5_registry_of_a_running_system w st :
  reachable w st ->
  (size (devices st) <= 6)%nat /\
  forall k l, devices st !! k = Some l ->
    k ∈ recognized_names /\
    exists d, heap st !! l = Some d /\
      dev_class d = CyclonextAttributeSensor /\
      dict_get "name" (dev_data d) = Some (JStr k) /\
      is_Some (dict_get "state" (dev_data d)).
Proof.
  intros Hreach. pose proof (reachable_registry_sane _ _ Hreach) as Hs.
  split; [|exact Hs].
  assert (Hsub : dom (devices st) ⊆ (list_to_set recognized_names : gset string)).
  { intros k [l Hl]%elem_of_dom. apply elem_of_list_to_set. by destruct (Hs _ _ Hl). }
  rewrite <- size_dom. etrans; [by apply subseteq_size|]. done.
Qed.

Lemma X5_registry_of_a_running_system_witness :
  (size (devices (update (world_expired (response_of [example_entry]))
                    (new_system "SN0001" "token-0" None)).2) <= 6)%nat.
Proof.
  exact (proj1 (X5_registry_of_a_running_system
                  (world_expired (response_of [example_entry])) _
                  (reach_update _ _ (reach_new _ "SN0001" "token-0" None)))).
Defined.

(** ** Parsing again, and the names a document leaves out *)

Lemma alter_fixed {A} (f : A -> A) (h : list A) l x :
  h !! l = Some x -> f x = x -> alter f l h = h.
Proof.
  intros Hl Hf. rewrite (list_alter_ext f id h h l); [by apply list_alter_id|..|done].
  intros y Hy. unfold id. congruence.
Qed.

(** A turn of the merge loop on an entry the registry already reflects
    changes nothing. *)
Lemma merge_state_same k s st d :
  device_at st k = Some d ->
  dict_get "name" (dev_data d) = Some (JStr k) ->
  dict_get "state" (dev_data d) = Some s ->
  merge_state k s st = st.
Proof.
  unfold device_at, merge_state. intros Hat Hn Hs.
  destruct (devices st !! k) as [l|]; simpl in Hat; [|done].
  rewrite (alter_fixed _ _ _ d Hat); [apply set_heap_same|].
  rewrite (overwrite_make_attrs _ _ _ Hn), (dict_setitem_id _ _ _ Hs). by destruct d.
Qed.

Lemma merge_loop_same recs st :
  dict_ok recs ->
  (forall k s, dict_get k recs = Some s ->
     exists d, device_at st k = Some d /\
               dict_get "name" (dev_data d) = Some (JStr k) /\
               dict_get "state" (dev_data d) = Some s) ->
  for_each_M merge_body (shape recs) st = (Ok tt, st).
Proof.
  induction recs as [|[k0 s0] recs IH]; intros Hnd Hall; [done|].
  unfold dict_ok in Hnd. simpl in Hnd. apply NoDup_cons in Hnd as [Hnin Hnd].
  unfold shape. cbn [fmap list_fmap fst snd].
  rewrite for_each_M_cons, merge_body_shape.
  destruct (Hall k0 s0) as (d & Hat & Hn & Hs); [simpl; by rewrite decide_True|].
  rewrite (merge_state_same _ _ _ _ Hat Hn Hs). apply IH; [done|].
  intros k s Hk. apply Hall. simpl. rewrite decide_False; [done|].
  intros ->. apply dict_get_None in Hnin. congruence.
Qed.

(** X6: parsing is idempotent.  When a response has been parsed without
    error into a registry the parser built, parsing the same response again
    completes and leaves the whole state (registry, device objects and
    everything else) exactly as the first parse left it. *)
Theorem X6_parse_twice response st st1 :
  registry_ok st ->
  _parse_shadow_response response st = (Ok tt, st1) ->
  _parse_shadow_response response st1 = (Ok tt, st1).
Proof.
  intros Hok. rewrite !parse_eq.
  destruct (shadow_entries response) as [flat|e] eqn:Hflat; [|done].
  destruct (shadow_entries_shaped _ _ Hflat) as (recs & -> & Hnd).
  destruct (merge_loop_contents recs st Hok Hnd) as (st' & Hrun & Hok' & Hat).
  rewrite Hrun. intros [= <-].
  apply merge_loop_same; [done|]. intros k s Hk.
  specialize (Hat k). rewrite Hk in Hat.
  exists (reconcile (device_at st k) k s). split; [exact Hat|]. split.
  - pose proof Hat as Hat'. unfold device_at at 1 in Hat'.
    destruct (devices st' !! k) as [l|] eqn:Hl; simpl in Hat'; [|done].
    destruct (Hok' _ _ Hl) as (d & Hd & Hn). rewrite Hd in Hat'.
    injection Hat' as Hd'. by rewrite <- Hd'.
  - unfold reconcile. destruct (device_at st k); simpl; [apply dict_get_setitem_eq|done].
Qed.

Lemma X6_parse_twice_witness :
  _parse_shadow_response (response_of [example_entry])
    (_parse_shadow_response (response_of [example_entry]) seen_mode).2
  = (Ok tt, (_parse_shadow_response (response_of [example_entry]) seen_mode).2).
Proof.
  apply (X6_parse_twice (response_of [example_entry]) seen_mode).
  - intros k l H. simpl in H. apply lookup_singleton_Some in H as [<- <-].
    eexists. split; reflexivity.
  - vm_compute. reflexivity.
Defined.

(** X7: a parse that completes leaves the device of every name that the
    flattened document does not mention exactly as it was, class and
    attributes: such an entry is stale, not reset. *)
Theorem X7_unmentioned_names_untouched response st flat st' :
  registry_ok st ->
  shadow_entries response = Ok flat ->
  _parse_shadow_response response st = (Ok tt, st') ->
  forall k, dict_get k flat = None ->
    devices st' !! k = devices st !! k /\ device_at st' k = device_at st k.
Proof.
  intros Hok Hflat. rewrite parse_eq, Hflat.
  destruct (shadow_entries_shaped _ _ Hflat) as (recs & -> & Hnd).
  destruct (merge_loop_contents recs st Hok Hnd) as (st1 & Hrun & Hok1 & Hat).
  rewrite Hrun. intros [= <-] k Hk.
  rewrite dict_get_shape in Hk.
  destruct (dict_get k recs) as [s|] eqn:Hs; [done|].
  specialize (Hat k). rewrite Hs in Hat. split; [|done].
  pose proof (merge_loop_extends (shape recs) st) as Hext.
  rewrite Hrun in Hext. simpl in Hext.
  destruct (devices st !! k) as [l|] eqn:Hl; [by apply (ext_devices _ _ Hext)|].
  destruct (devices st1 !! k) as [l1|] eqn:Hl1; [|done].
  destruct (Hok1 _ _ Hl1) as (d & Hd & _).
  rewrite (device_at_Some _ _ _ _ Hl1 Hd) in Hat.
  unfold device_at in Hat. by rewrite Hl in Hat.
Qed.

Lemma X7_unmentioned_names_untouched_witness :
  device_at (_parse_shadow_response (response_of [JObj [("cycle", JStr "B")]])
               seen_mode).2 "mode"
  = Some (mkDevice CyclonextAttributeSensor
            [("name", JStr "mode"); ("state", JStr "filter"); ("label", JStr "Mode")]).
Proof.
  assert (Hrun : _parse_shadow_response (response_of [JObj [("cycle", JStr "B")]]) seen_mode
                 = (Ok tt, (_parse_shadow_response
                              (response_of [JObj [("cycle", JStr "B")]]) seen_mode).2))
    by (vm_compute; reflexivity).
  assert (Hok : registry_ok seen_mode).
  { intros k l H. simpl in H. apply lookup_singleton_Some in H as [<- <-].
    eexists. split; reflexivity. }
  exact (proj2 (X7_unmentioned_names_untouched
                  (response_of [JObj [("cycle", JStr "B")]]) seen_mode
                  [("cycle", make_attrs "cycle" (JStr "B"))] _ Hok eq_refl Hrun
                  "mode" eq_refl)).
Defined.

(** ** Outcomes of a refresh *)

(** X8: a refresh that returns normally was either throttled, and then only
    the clock has been read, or it fetched and parsed: then the online
    status is true, the last-refresh timestamp is the second reading of the
    clock, the clock has been read twice, and every key the registry had is
    still there. *)
Theorem X8_refresh_returns w st st' :
  update w st = (Ok tt, st') ->
  (time_time w (clock_reads st) - last_refresh st < MIN_SECS_TO_REFRESH w /\
   st' = tick st) \/
  (~ time_time w (clock_reads st) - last_refresh st < MIN_SECS_TO_REFRESH w /\
   online st' = Some true /\
   last_refresh st' = time_time w (S (clock_reads st)) /\
   clock_reads st' = S (S (clock_reads st)) /\
   dom (devices st) ⊆ dom (devices st')).
Proof.
  rewrite update_eq. case_decide as Hthr; [intros [= <-]; by left|].
  pose proof (send_devices_request_frame w NoKwargs (tick st)) as Hframe.
  unfold send_reported_state_request.
  destruct (send_devices_request w NoKwargs (tick st)) as [[r|e] st1]; [|done].
  simpl in Hframe. destruct Hframe as (_ & _ & _ & Hdev & _ & Hclock).
  pose proof (parse_extends r st1) as Hext.
  destruct (_parse_shadow_response r st1) as [[[]|e] st2]; [|done].
  simpl in Hext. intros [= <-]. right. simpl.
  destruct Hext. rewrite ext_clock0, Hclock. simpl.
  split; [done|]. split; [done|]. split; [done|]. split; [done|].
  intros k [l Hl]%elem_of_dom. rewrite <- Hdev in Hl.
  apply elem_of_dom. exists l. by apply ext_devices0.
Qed.

Lemma X8_refresh_returns_witness :
  online (update (world_expired (response_of [example_entry])) seen_mode).2 = Some true /\
  last_refresh (update (world_expired (response_of [example_entry])) seen_mode).2 = 1000.
Proof.
  assert (Hrun : update (world_expired (response_of [example_entry])) seen_mode
                 = (Ok tt, (update (world_expired (response_of [example_entry]))
                              seen_mode).2))
    by (vm_compute; reflexivity).
  destruct (X8_refresh_returns _ _ _ Hrun) as [[Hthr _]|(_ & Hon & Hlast & _)].
  - vm_compute in Hthr. discriminate Hthr.
  - split; [exact Hon | exact Hlast].
Defined.

(** X9: a refresh that raises, whatever it raises, has read the clock once
    and leaves the last-refresh timestamp, the registry and the device
    objects as they were; the online status is as before, unknown or false,
    never newly true.  So a failed refresh does not throttle the next one. *)
Theorem X9_refresh_raises w st e st' :
  update w st = (Raise e, st') ->
  last_refresh st' = last_refresh st /\
  devices st' = devices st /\
  heap st' = heap st /\
  clock_reads st' = S (clock_reads st) /\
  (online st' = online st \/ online st' = None \/ online st' = Some false).
Proof.
  rewrite update_eq. case_decide as Hthr; [done|].
  pose proof (send_devices_request_frame w NoKwargs (tick st)) as Hframe.
  unfold send_reported_state_request.
  destruct (send_devices_request w NoKwargs (tick st)) as [[r|e1] st1];
    simpl in Hframe; destruct Hframe as (_ & Hlast & Hon & Hdev & Hheap & Hclock).
  - destruct (_parse_shadow_response r st1) as [[[]|e2] st2] eqn:Hparse; [done|].
    destruct (parse_raise _ _ _ _ Hparse) as [-> _].
    intros [= <- <-]. case_bool_decide; simpl; eauto 10.
  - intros [= <- <-]. destruct (isinstance_service w e1); simpl; eauto 10.
Qed.

Lemma X9_refresh_raises_witness :
  last_refresh (update world_malformed seen_mode).2 = 100 /\
  devices (update world_malformed seen_mode).2 = devices seen_mode.
Proof.
  assert (Hrun : update world_malformed seen_mode
                 = (Raise AttributeError, (update world_malformed seen_mode).2))
    by (vm_compute; reflexivity).
  destruct (X9_refresh_raises _ _ _ _ Hrun) as (Hlast & Hdev & _).
  split; [exact Hlast | exact Hdev].
Defined.

(** X10: two refreshes in a row.  After a refresh that fetched and parsed,
    a second refresh whose clock reading is less than
    [MIN_SECS_TO_REFRESH] after the reading that closed the first one
    returns at once, without any call to the client. *)
Theorem X10_refresh_then_too_early w st st1 :
  ~ time_time w (clock_reads st) - last_refresh st < MIN_SECS_TO_REFRESH w ->
  update w st = (Ok tt, st1) ->
  time_time w (S (S (clock_reads st))) - time_time w (S (clock_reads st))
    < MIN_SECS_TO_REFRESH w ->
  update w st1 = (Ok tt, tick st1) /\
  trace (update w st1).2 = trace st1 /\
  last_refresh (update w st1).2 = time_time w (S (clock_reads st)).
Proof.
  intros Hlate Hrun Hsoon.
  assert (Hfacts : last_refresh st1 = time_time w (S (clock_reads st)) /\
                   clock_reads st1 = S (S (clock_reads st))).
  { revert Hrun. rewrite update_eq, decide_False by done.
    pose proof (send_devices_request_frame w NoKwargs (tick st)) as Hframe.
    unfold send_reported_state_request.
    destruct (send_devices_request w NoKwargs (tick st)) as [[r|e] st0]; [|done].
    simpl in Hframe. destruct Hframe as (_ & _ & _ & _ & _ & Hclock).
    pose proof (parse_extends r st0) as Hext.
    destruct (_parse_shadow_response r st0) as [[[]|e] st2]; [|done].
    simpl in Hext. destruct Hext. intros [= <-]. simpl.
    by rewrite ext_clock0, Hclock. }
  destruct Hfacts as [Hlast Hclock].
  rewrite update_eq, decide_True by (by rewrite Hlast, Hclock).
  by rewrite <- Hlast.
Qed.

Lemma X10_refresh_then_too_early_witness :
  trace (update (world_expired (response_of [example_entry]))
           (update (world_expired (response_of [example_entry])) seen_mode).2).2
  = trace (update (world_expired (response_of [example_entry])) seen_mode).2.
Proof.
  assert (Hrun : update (world_expired (response_of [example_entry])) seen_mode
                 = (Ok tt, (update (world_expired (response_of [example_entry]))
                              seen_mode).2))
    by (vm_compute; reflexivity).
  refine (proj1 (proj2 (X10_refresh_then_too_early _ _ _ _ Hrun _))).
  - vm_compute. intros H. discriminate H.
  - vm_compute. reflexivity.
Defined.

(** ** Requests *)

(** X11: a desired-state submission never touches the online status, the
    last-refresh timestamp, the registry, the device objects or the clock;
    it makes at most two requests, each to the shadow URL of the system and
    each carrying the body [{"state": {"desired": state}}], also when the
    request is sent again after a login. *)
Theorem X11_desired_state_request w desired st :
  online (send_desired_state_request w desired st).2 = online st /\
  last_refresh (send_desired_state_request w desired st).2 = last_refresh st /\
  devices (send_desired_state_request w desired st).2 = devices st /\
  heap (send_desired_state_request w desired st).2 = heap st /\
  clock_reads (send_desired_state_request w desired st).2 = clock_reads st /\
  exists evs,
    trace (send_desired_state_request w desired st).2 = (trace st ++ evs)%list /\
    (length (List.filter is_send evs) <= 2)%nat /\
    forall rq, EvSendRequest rq ∈ evs ->
      req_url rq = ("https://prod.zodiac-io.com/devices/v1/" ++ serial st ++ "/shadow") /\
      req_kwargs rq = PostJson (JObj [("state", JObj [("desired", desired)])]).
Proof.
  unfold send_desired_state_request.
  set (kw := PostJson _).
  destruct (send_devices_request_frame w kw st) as (_ & Hlast & Hon & Hdev & Hheap & Hclock).
  split; [done|]. split; [done|]. split; [done|]. split; [done|]. split; [done|].
  destruct (send_devices_request_calls w kw st) as (evs & Htr & Hevs).
  exists evs. split; [done|].
  destruct Hevs as [->|[->|(tok & _ & ->)]]; (split; [simpl; lia|]);
    intros rq Hin; repeat (apply elem_of_cons in Hin as [Hin|Hin]);
    try (by apply elem_of_nil in Hin); try done; by injection Hin as ->.
Qed.

Lemma X11_desired_state_request_witness :
  online (send_desired_state_request world_rejected (JObj [("mode", JNum 1)]) seen_mode).2
    = Some true /\
  exists evs,
    trace (send_desired_state_request world_rejected (JObj [("mode", JNum 1)]) seen_mode).2
      = evs /\
    forall rq, EvSendRequest rq ∈ evs ->
      req_kwargs rq = PostJson (JObj [("state", JObj [("desired", JObj [("mode", JNum 1)])])]).
Proof.
  destruct (X11_desired_state_request world_rejected (JObj [("mode", JNum 1)]) seen_mode)
    as (Hon & _ & _ & _ & _ & evs & Htr & _ & Hreq).
  split; [exact Hon|]. exists evs. split; [exact Htr|].
  intros rq Hin. exact (proj2 (Hreq rq Hin)).
Defined.

(** X12: an answer to the first request that is not the unauthorized
    exception ends the call: a response is returned, any other exception is
    raised, and in both cases exactly one request has been made, no login,
    and the credential is the same. *)
Theorem X12_no_retry_without_unauthorized w kw st :
  transport w (length (sends st)) (first_request kw st)
    <> Raise AqualinkServiceUnauthorizedException ->
  send_devices_request w kw st =
    (transport w (length (sends st)) (first_request kw st),
     log_event (EvSendRequest (first_request kw st)) st) /\
  logins (send_devices_request w kw st).2 = logins st /\
  length (sends (send_devices_request w kw st).2) = S (length (sends st)) /\
  id_token (send_devices_request w kw st).2 = id_token st.
Proof.
  intros Hne. rewrite send_devices_request_eq. cbv zeta.
  destruct (transport w _ _) as [r|e] eqn:Hans.
  - simpl. rewrite logins_log_send, sends_log_send, length_app. simpl.
    repeat split; lia.
  - rewrite bool_decide_eq_false_2 by congruence.
    simpl. rewrite logins_log_send, sends_log_send, length_app. simpl.
    repeat split; lia.
Qed.

Lemma X12_no_retry_without_unauthorized_witness :
  send_devices_request world_offline NoKwargs seen_mode =
    (Ok (mkResponse (Raise AqualinkSystemOfflineException)),
     log_event (EvSendRequest (first_request NoKwargs seen_mode)) seen_mode).
Proof.
  refine (proj1 (X12_no_retry_without_unauthorized world_offline NoKwargs seen_mode _)).
  simpl. discriminate.
Defined.

(** ** Labels and names (device.py) *)

Ltac each_char c := destruct c as [[] [] [] [] [] [] [] []].

Lemma char_lower_upper c : char_lower (char_upper c) = char_lower c.
Proof. each_char c; reflexivity. Qed.

Lemma char_upper_lower c : char_upper (char_lower c) = char_upper c.
Proof. each_char c; reflexivity. Qed.

Lemma char_lower_lower c : char_lower (char_lower c) = char_lower c.
Proof. each_char c; reflexivity. Qed.

Lemma char_lower_not_upper c : is_upper (char_lower c) = false.
Proof. each_char c; reflexivity. Qed.

Lemma char_lower_id c : is_upper c = false -> char_lower c = c.
Proof. unfold char_lower. by intros ->. Qed.

Lemma char_lower_underscore c : char_lower c = "_"%char <-> c = "_"%char.
Proof. each_char c; split; (reflexivity || discriminate). Qed.

Lemma char_upper_underscore c : char_upper c = "_"%char <-> c = "_"%char.
Proof. each_char c; split; (reflexivity || discriminate). Qed.

Lemma char_lower_space c : char_lower c = " "%char <-> c = " "%char.
Proof. each_char c; split; (reflexivity || discriminate). Qed.

Lemma py_split_nonempty sep s : py_split sep s <> [].
Proof.
  destruct s as [|c s]; simpl; [done|].
  destruct (decide (c = sep)); [done|]. by destruct (py_split sep s).
Qed.

Lemma py_join_cons_empty sep w ws :
  py_join sep (EmptyString :: w :: ws) = (sep ++ py_join sep (w :: ws))%string.
Proof. reflexivity. Qed.

Lemma py_join_cons_char sep c w ws :
  py_join sep (String c w :: ws) = String c (py_join sep (w :: ws)).
Proof. by destruct ws. Qed.

(** The three calls of [label] amount to one pass over the name. *)
Lemma label_one_pass s :
  match py_split "_"%char s with
  | w :: ws =>
      py_join " " (py_capitalize w :: (py_capitalize <$> ws)) = label_go true s /\
      py_join " " (py_lower w :: (py_capitalize <$> ws)) = label_go false s
  | [] => False
  end.
Proof.
  induction s as [|c s IH]; [done|]. cbn [py_split label_go].
  destruct (py_split "_"%char s) as [|w ws] eqn:Hs; [done|]. destruct IH as [IH1 IH2].
  destruct (decide (c = "_"%char)) as [->|Hc].
  - cbn [fmap list_fmap].
    change (py_capitalize "") with EmptyString. change (py_lower "") with EmptyString.
    rewrite (py_join_cons_empty " " (py_capitalize w) (py_capitalize <$> ws)).
    by rewrite IH1.
  - cbn [py_capitalize py_lower]. rewrite !py_join_cons_char. by rewrite IH2.
Qed.

Lemma label_of_name_go n : label_of_name n = label_go true n.
Proof.
  unfold label_of_name. pose proof (label_one_pass n) as H.
  destruct (py_split "_"%char n) as [|w ws]; [done|]. by destruct H.
Qed.

Lemma label_go_shape b n :
  Forall2 (fun c c' => if decide (c = "_"%char) then c' = " "%char
                       else char_lower c' = char_lower c)
          (chars n) (chars (label_go b n)).
Proof.
  revert b. induction n as [|c n IH]; intros b; simpl; [constructor|].
  destruct (decide (c = "_"%char)) as [->|Hc]; simpl; constructor; try apply IH.
  - by rewrite decide_True.
  - rewrite decide_False by done.
    destruct b; [apply char_lower_upper | apply char_lower_lower].
Qed.

Lemma label_go_no_underscore b n : "_"%char ∉ chars (label_go b n).
Proof.
  revert b. induction n as [|c n IH]; intros b; simpl; [apply not_elem_of_nil|].
  destruct (decide (c = "_"%char)) as [->|Hc]; simpl; apply not_elem_of_cons.
  - split; [done|apply IH].
  - split; [|apply IH]. intros Heq. symmetry in Heq. apply Hc.
    destruct b; [by apply char_upper_underscore|by apply char_lower_underscore].
Qed.

Lemma label_go_lower b n : label_go b (py_lower n) = label_go b n.
Proof.
  revert b. induction n as [|c n IH]; intros b; simpl; [done|].
  destruct (decide (c = "_"%char)) as [->|Hc].
  - by rewrite IH.
  - rewrite decide_False by (by rewrite char_lower_underscore).
    rewrite IH. by rewrite char_upper_lower, char_lower_lower.
Qed.

Lemma chars_length s : length (chars s) = String.length s.
Proof. induction s as [|c s IH]; simpl; [done|]. by rewrite <- IH. Qed.

(** X13: the label of a device differs from its name only in the case of
    its letters and in its underscores, each of which is a space in the
    label: both have the same length, the label has no underscore, and two
    names that differ only in case have the same label. *)
Theorem X13_label_of_name n :
  ascii_text n ->
  Forall2 (fun c c' => if decide (c = "_"%char) then c' = " "%char
                       else char_lower c' = char_lower c)
          (chars n) (chars (label_of_name n)) /\
  String.length (label_of_name n) = String.length n /\
  ("_"%char ∉ chars (label_of_name n)) /\
  label_of_name (py_lower n) = label_of_name n.
Proof.
  intros _. rewrite !label_of_name_go.
  pose proof (label_go_shape true n) as Hshape.
  split; [done|]. split; [|split].
  - rewrite <- !chars_length. symmetry. by eapply Forall2_length.
  - apply label_go_no_underscore.
  - apply label_go_lower.
Qed.

Lemma X13_label_of_name_witness :
  String.length (label_of_name "cycleStartTime") = 14%nat /\
  label_of_name "quick_tim" = "Quick Tim" /\
  label_of_name (py_lower "cycleStartTime") = label_of_name "cycleStartTime".
Proof.
  assert (Ha : ascii_text "cycleStartTime") by (by repeat constructor).
  destruct (X13_label_of_name "cycleStartTime" Ha) as (_ & Hlen & _ & Hcase).
  split; [exact Hlen|]. split; [reflexivity | exact Hcase].
Defined.

(** Replacing one character by another is a change character by
    character. *)
Lemma replace_one_char a b s :
  py_replace s (String a EmptyString) (String b EmptyString)
  = map_chars (fun c => if decide (c = a) then b else c) s.
Proof.
  unfold py_replace. induction s as [|c s IH]; [done|].
  cbn [replace_from map_chars String.prefix String.length Nat.sub].
  destruct (ascii_dec a c) as [<-|Hne].
  - rewrite decide_True by done.
    replace (String.prefix "" s) with true by (by destruct s).
    simpl. by rewrite IH.
  - rewrite decide_False by congruence. by rewrite IH.
Qed.

Lemma py_lower_map s : py_lower s = map_chars char_lower s.
Proof. induction s as [|c s IH]; simpl; [done|]. by rewrite IH. Qed.

Lemma map_chars_compose f g s : map_chars f (map_chars g s) = map_chars (fun c => f (g c)) s.
Proof. induction s as [|c s IH]; simpl; [done|]. by rewrite IH. Qed.

Lemma map_chars_ext f g s :
  (forall c, c ∈ chars s -> f c = g c) -> map_chars f s = map_chars g s.
Proof.
  induction s as [|c s IH]; simpl; [done|]. intros H. f_equal.
  - apply H. by left.
  - apply IH. intros c' Hc'. apply H. by right.
Qed.

Lemma map_chars_id s : map_chars (fun c => c) s = s.
Proof. induction s as [|c s IH]; simpl; [done|]. by rewrite IH. Qed.

Lemma chars_map_chars f s : chars (map_chars f s) = f <$> chars s.
Proof. unfold chars. induction s as [|c s IH]; simpl; [done|]. by rewrite IH. Qed.

Lemma name_of_sensor_type_map t :
  name_of_sensor_type t =
  map_chars (fun c => if decide (c = " "%char) then "_"%char else char_lower c) t.
Proof.
  unfold name_of_sensor_type. rewrite replace_one_char, py_lower_map, map_chars_compose.
  apply map_chars_ext. intros c _.
  destruct (decide (c = " "%char)) as [->|Hc]; [done|].
  rewrite decide_False; [done|]. by rewrite char_lower_space.
Qed.

(** X14: the name of a numbered sensor is its sensor type with every letter
    in lower case and every space turned into an underscore: it has the
    same length, no space and no upper-case letter, and taking the name of
    a name changes nothing. *)
Theorem X14_name_of_sensor_type t :
  ascii_text t ->
  chars (name_of_sensor_type t) =
    (fun c => if decide (c = " "%char) then "_"%char else char_lower c) <$> chars t /\
  String.length (name_of_sensor_type t) = String.length t /\
  (forall c, c ∈ chars (name_of_sensor_type t) -> c <> " "%char /\ is_upper c = false) /\
  name_of_sensor_type (name_of_sensor_type t) = name_of_sensor_type t.
Proof.
  intros _. rewrite !name_of_sensor_type_map.
  split; [apply chars_map_chars|]. split; [|split].
  - by rewrite <- !chars_length, chars_map_chars, length_fmap.
  - intros c. rewrite chars_map_chars. intros (c0 & -> & _)%list_elem_of_fmap.
    destruct (decide (c0 = " "%char)) as [->|Hc]; [done|].
    split; [by rewrite char_lower_space | apply char_lower_not_upper].
  - rewrite map_chars_compose. apply map_chars_ext. intros c _.
    destruct (decide (c = " "%char)) as [->|Hc]; [done|].
    rewrite decide_False by (by rewrite char_lower_space).
    apply char_lower_lower.
Qed.

Lemma X14_name_of_sensor_type_witness :
  name_of_sensor_type "Water Temp" = "water_temp" /\
  name_of_sensor_type (name_of_sensor_type "Water Temp") = name_of_sensor_type "Water Temp".
Proof.
  assert (Ha : ascii_text "Water Temp") by (by repeat constructor).
  destruct (X14_name_of_sensor_type "Water Temp" Ha) as (_ & _ & _ & Hidem).
  split; [reflexivity | exact Hidem].
Defined.

Lemma label_go_lower_map b n :
  py_lower (label_go b n) =
  map_chars (fun c => if decide (c = "_"%char) then " "%char else char_lower c) n.
Proof.
  revert b. induction n as [|c n IH]; intros b; simpl; [done|].
  destruct (decide (c = "_"%char)) as [->|Hc]; simpl; rewrite IH; [done|].
  by destruct b; rewrite ?char_lower_upper, ?char_lower_lower.
Qed.

(** X15: from a name to its label and back.  For a name without upper-case
    letters and without spaces, the sensor name computed from the label of
    the name is the name again. *)
Theorem X15_name_label_name n :
  ascii_text n ->
  (forall c, c ∈ chars n -> is_upper c = false /\ c <> " "%char) ->
  name_of_sensor_type (label_of_name n) = n.
Proof.
  intros _ Hn. unfold name_of_sensor_type.
  rewrite label_of_name_go, label_go_lower_map, replace_one_char, map_chars_compose.
  rewrite <- (map_chars_id n) at 2. apply map_chars_ext. intros c Hc.
  destruct (Hn c Hc) as [Hup Hsp].
  destruct (decide (c = "_"%char)) as [->|Hu]; [done|].
  rewrite char_lower_id by done. by rewrite decide_False.
Qed.

Lemma X15_name_label_name_witness :
  name_of_sensor_type (label_of_name "water_temp") = "water_temp".
Proof.
  apply X15_name_label_name.
  - by repeat constructor.
  - intros c Hc. simpl in Hc.
    repeat (apply elem_of_cons in Hc as [->|Hc]; [split; [reflexivity|discriminate]|]).
    by apply elem_of_nil in Hc.
Defined.

(** ** What a caller reads from the devices of a running system *)

(** X16: in every state a system goes through, the properties of every
    registered device can be read without an exception: [name] is the
    registry key, [label] is the label of the key, [state] is [str] of the
    stored state, [model] is ["AttributeSensor"] and [manufacturer] is
    ["Zodiac"]. *)
Theorem X16_device_properties w repr_other st k l :
  reachable w st ->
  devices st !! k = Some l ->
  exists d,
    heap st !! l = Some d /\
    device_name d = Ok (JStr k) /\
    device_label d = Ok (JStr (label_of_name k)) /\
    (exists v, dict_get "state" (dev_data d) = Some v /\
               CyclonextDevice_state repr_other d = Ok (py_str repr_other v)) /\
    device_model d = "AttributeSensor" /\
    device_manufacturer d = "Zodiac".
Proof.
  intros Hreach Hk.
  destruct (reachable_registry_sane _ _ Hreach k l Hk) as (_ & d & Hd & Hc & Hn & [v Hv]).
  exists d. split; [done|].
  unfold device_name, device_label, device_model, CyclonextDevice_label,
    CyclonextDevice_name, CyclonextDevice_state.
  rewrite Hc, Hn, Hv. simpl. repeat split; eauto.
Qed.

Lemma X16_device_properties_witness :
  exists d,
    heap (update (world_expired (response_of [example_entry]))
            (new_system "SN0001" "token-0" None)).2 !! 2%nat = Some d /\
    device_label d = Ok (JStr "Cyclestarttime") /\
    CyclonextDevice_state (fun _ => "") d = Ok "123".
Proof.
  assert (Hk : devices (update (world_expired (response_of [example_entry]))
                          (new_system "SN0001" "token-0" None)).2
               !! "cycleStartTime" = Some 2%nat)
    by (vm_compute; reflexivity).
  destruct (X16_device_properties
              (world_expired (response_of [example_entry])) (fun _ => "") _
              "cycleStartTime" 2%nat
              (reach_update _ _ (reach_new _ "SN0001" "token-0" None)) Hk)
    as (d & Hd & _ & Hlabel & _).
  exists d. split; [exact Hd|]. split; [exact Hlabel|].
  vm_compute in Hd. injection Hd as <-. reflexivity.
Defined.

(** X17: from the document to the [state] property.  After a parse of an
    accepted document, the device of every name to which the document
    gives a value [v] reports [str(v)] as its state; when [v] is a string
    the state is that string. *)
Theorem X17_state_after_parse repr_other st response data robot k v :
  registry_ok st ->
  response_json response = Ok data ->
  robot_root data = Ok (JArr robot) ->
  Forall entry_ok robot ->
  document_value k robot = Some v ->
  exists st' d,
    _parse_shadow_response response st = (Ok tt, st') /\
    device_at st' k = Some d /\
    CyclonextDevice_name d = Ok (JStr k) /\
    CyclonextDevice_state repr_other d = Ok (py_str repr_other v) /\
    (forall s, v = JStr s -> CyclonextDevice_state repr_other d = Ok s).
Proof.
  intros Hok Hjson Hroot Hall Hv.
  destruct (parse_contents st response data robot Hok Hjson Hroot Hall)
    as (st' & Hrun & Hok' & Hat).
  specialize (Hat k). rewrite Hv in Hat.
  exists st', (reconcile (device_at st k) k v). split; [done|]. split; [done|].
  assert (Hstate : dict_get "state" (dev_data (reconcile (device_at st k) k v)) = Some v).
  { unfold reconcile. destruct (device_at st k); simpl; [apply dict_get_setitem_eq|done]. }
  assert (Hname : dict_get "name" (dev_data (reconcile (device_at st k) k v)) = Some (JStr k)).
  { pose proof Hat as Hat'. unfold device_at at 1 in Hat'.
    destruct (devices st' !! k) as [l|] eqn:Hl; simpl in Hat'; [|done].
    destruct (Hok' _ _ Hl) as (d & Hd & Hn). rewrite Hd in Hat'.
    injection Hat' as Hd'. by rewrite <- Hd'. }
  unfold CyclonextDevice_name, CyclonextDevice_state. rewrite Hname, Hstate.
  split; [done|]. split; [done|]. by intros s ->.
Qed.

Lemma X17_state_after_parse_witness :
  exists st' d,
    _parse_shadow_response (response_of [JObj [("mode", JStr "waste")]]) seen_mode
      = (Ok tt, st') /\
    device_at st' "mode" = Some d /\
    CyclonextDevice_state (fun _ => "") d = Ok "waste".
Proof.
  destruct (X17_state_after_parse (fun _ => "") seen_mode
              (response_of [JObj [("mode", JStr "waste")]])
              (shadow_document [JObj [("mode", JStr "waste")]])
              [JObj [("mode", JStr "waste")]] "mode" (JStr "waste"))
    as (st' & d & Hrun & Hat & _ & _ & Hstr).
  - intros k l H. simpl in H. apply lookup_singleton_Some in H as [<- <-].
    eexists. split; reflexivity.
  - reflexivity.
  - reflexivity.
  - apply (bool_decide_unpack _). vm_compute. exact I.
  - reflexivity.
  - exists st', d. split; [exact Hrun|]. split; [exact Hat|]. by apply Hstr.
Defined.
